(** * Face-recognition attendance pipeline: model and properties

    A shallow embedding of the recognition / tracking / attendance core of
    the attendance system:

    - [FaceStore]      : core/face_recognition.py  (FaceRecognitionHandler)
    - [Database]       : database/database.py      (DatabaseManager)
    - [Attendance]     : core/attendance_tracker.py (AttendanceTracker)
    - [Video]          : core/video_processor.py   (VideoProcessor)

    Conventions.  numpy / Python floats (similarity scores, box coordinates,
    [time.time()] readings) are modelled as rationals [Q]; IEEE rounding and
    NaN are outside the model.  Python dicts whose iteration order matters
    are insertion-ordered association lists; dicts and sets that are only
    looked up are [gmap] / [gset].  Everything the program reads from its
    environment (clock, detector, tracker, faults of the database server or
    of the file system) is an explicit input. *)

From Stdlib Require Import QArith ZArith Ascii String Lia Lqa.
From stdpp Require Import gmap strings list pretty.

Local Open Scope string_scope.
Local Open Scope Z_scope.
Local Open Scope list_scope.

(** ** Python values shared by the modules *)

(** A call either returns a value or raises; a raised exception carries its
    text.  State changes made before the raise are kept by the caller. *)
Inductive result (A : Type) : Type :=
| Returned (a : A)
| Raised (err : string).
Arguments Returned {A} a.
Arguments Raised {A} err.

(** [x > y] on floats. *)
Definition Qgtb (x y : Q) : bool := negb (Qle_bool x y).

(** [needle in hay] on Python strings. *)
Fixpoint str_in (needle hay : string) : bool :=
  String.prefix needle hay
  || match hay with
     | EmptyString => false
     | String _ rest => str_in needle rest
     end.

(** Truthiness of a Python string: the empty string is falsy. *)
Definition truthy (s : string) : bool :=
  match s with EmptyString => false | _ => true end.

(** A face embedding (numpy vector). *)
Definition encoding : Type := list Q.

(** ** core/face_recognition.py *)
Module FaceStore.

(** A value of the [registered_faces] dict: [{'name': ..., 'encoding': ...}]. *)
Record face_data : Type := FaceData {
  name : string;
  face_encoding : encoding
}.

(** [registered_faces]: a dict iterated by [recognize_face], so an
    association list in insertion order, keys unique. *)
Abbreviation registry := (list (string * face_data)).

(** [person_id in d] *)
Definition dict_mem (person_id : string) (d : registry) : bool :=
  existsb (fun e => String.eqb (fst e) person_id) d.

(** [del d[person_id]] (for a key that is present). *)
Definition dict_del (person_id : string) (d : registry) : registry :=
  List.filter (fun e => negb (String.eqb (fst e) person_id)) d.

(** [d[person_id] = v]: an existing key keeps its place, a new one goes
    last. *)
Fixpoint dict_set (person_id : string) (v : face_data) (d : registry) : registry :=
  match d with
  | [] => [(person_id, v)]
  | e :: rest =>
      if String.eqb (fst e) person_id then (person_id, v) :: rest
      else e :: dict_set person_id v rest
  end.

(** What the pickle file at [face_db_path] holds: nothing, a pickled
    registry, or bytes that do not unpickle. *)
Inductive disk : Type :=
| NoFile
| Pickled (d : registry)
| Garbage.

(** Outcome of opening the file for writing and dumping into it: the
    write goes through, or an exception is raised and the file is left
    in some state. *)
Inductive write_outcome : Type :=
| WriteOk
| WriteFails (left_on_disk : disk).

Record handler : Type := Handler {
  similarity_threshold : Q;
  registered_faces : registry;
  face_db : disk
}.

Definition set_registered (h : handler) (d : registry) : handler :=
  {| similarity_threshold := similarity_threshold h;
     registered_faces := d;
     face_db := face_db h |}.

(** [load_face_encodings]: fails soft to the empty dict. *)
Definition load_face_encodings (h : handler) : registry :=
  match face_db h with
  | Pickled d => d
  | NoFile | Garbage => []
  end.

(** [save_face_encodings]: [True] when the dump went through, [False]
    when it raised (the exception is printed and swallowed). *)
Definition save_face_encodings (io : write_outcome) (h : handler) : bool * handler :=
  match io with
  | WriteOk =>
      (true, {| similarity_threshold := similarity_threshold h;
                registered_faces := registered_faces h;
                face_db := Pickled (registered_faces h) |})
  | WriteFails residue =>
      (false, {| similarity_threshold := similarity_threshold h;
                 registered_faces := registered_faces h;
                 face_db := residue |})
  end.

(** [add_face_encoding] *)
Definition add_face_encoding (io : write_outcome) (person_id nm : string)
    (enc : encoding) (h : handler) : bool * handler :=
  save_face_encodings io
    (set_registered h (dict_set person_id (FaceData nm enc) (registered_faces h))).

(** [remove_face_encoding]: the file is written only when the key was
    present, and the value returned is then the one of the save. *)
Definition remove_face_encoding (io : write_outcome) (person_id : string)
    (h : handler) : bool * handler :=
  if dict_mem person_id (registered_faces h) then
    save_face_encodings io
      (set_registered h (dict_del person_id (registered_faces h)))
  else (false, h).

(** [reload_face_encodings] *)
Definition reload_face_encodings (h : handler) : nat * handler :=
  let h' := set_registered h (load_face_encodings h) in
  (length (registered_faces h'), h').

(** [update_similarity_threshold] *)
Definition update_similarity_threshold (new_threshold : Q) (h : handler)
    : bool * handler :=
  if Qle_bool 0 new_threshold && Qle_bool new_threshold 1 then
    (true, {| similarity_threshold := new_threshold;
              registered_faces := registered_faces h;
              face_db := face_db h |})
  else (false, h).

Section Recognition.

(** [calculate_similarity]: numpy's [dot(a, b) / (norm(a) * norm(b))].
    The floating-point linear algebra is not modelled; the function is
    taken as given. *)
Variable calculate_similarity : encoding -> encoding -> Q.

(** The loop variables of [recognize_face]. *)
Record scan : Type := Scan {
  max_similarity : Q;
  recognized_id : option string;
  recognized_name : option string
}.

(** One iteration of [for person_id, data in registered_faces.items()]. *)
Definition recognize_step (thr : Q) (query : encoding) (acc : scan)
    (e : string * face_data) : scan :=
  let similarity := calculate_similarity query (face_encoding (snd e)) in
  if Qgtb similarity (max_similarity acc) && Qgtb similarity thr then
    {| max_similarity := similarity;
       recognized_id := Some (fst e);
       recognized_name := Some (name (snd e)) |}
  else acc.

Definition recognize_loop (thr : Q) (query : encoding) (d : registry)
    (acc : scan) : scan :=
  fold_left (recognize_step thr query) d acc.

(** [recognize_face] *)
Definition recognize_face (h : handler) (query : encoding)
    : option string * option string * Q :=
  match registered_faces h with
  | [] => (None, None, 0%Q)
  | d =>
      let r := recognize_loop (similarity_threshold h) query d
                 (Scan 0%Q None None) in
      (recognized_id r, recognized_name r, max_similarity r)
  end.

(** [verify_face] *)
Definition verify_face (h : handler) (person_id : string) (query : encoding)
    : bool * Q :=
  match List.find (fun e => String.eqb (fst e) person_id) (registered_faces h) with
  | None => (false, 0%Q)
  | Some e =>
      let similarity := calculate_similarity query (face_encoding (snd e)) in
      (Qgtb similarity (similarity_threshold h), similarity)
  end.

End Recognition.

(** [get_registered_count] *)
Definition get_registered_count (h : handler) : nat :=
  length (registered_faces h).

(** [get_all_registered_ids] *)
Definition get_all_registered_ids (h : handler) : list string :=
  List.map fst (registered_faces h).

(** [extract_face_encoding], on the embeddings of the faces the detector
    finds in the frame. *)
Definition extract_face_encoding (found : list encoding) : option encoding * string :=
  match found with
  | [] => (None, "No face detected")
  | [f] => (Some f, "Face encoding extracted successfully")
  | _ =>
      (None, "Multiple faces detected. Please ensure only one person is in frame")
  end.

End FaceStore.

(** ** database/database.py *)
Module Database.

(** *** Python's [int(str)] and [str.split(':')[0]] *)

(** The text of a column is read as ASCII.  [int()] also accepts the decimal
    digits and the blanks of other scripts; these are not modelled, and what
    is proved about the shift-end hour is stated for ASCII digits. *)

(** Characters [int()] and [str.strip()] treat as blanks (ASCII part). *)
Definition is_space (a : ascii) : bool :=
  let n := Z.of_nat (nat_of_ascii a) in
  ((9 <=? n) && (n <=? 13)) || ((28 <=? n) && (n <=? 32)).

Definition digit_of (a : ascii) : option Z :=
  let n := Z.of_nat (nat_of_ascii a) in
  if (48 <=? n) && (n <=? 57) then Some (n - 48) else None.

Fixpoint lstrip (s : string) : string :=
  match s with
  | String a rest => if is_space a then lstrip rest else s
  | EmptyString => EmptyString
  end.

Fixpoint rstrip (s : string) : string :=
  match s with
  | EmptyString => EmptyString
  | String a rest =>
      match rstrip rest with
      | EmptyString => if is_space a then EmptyString else String a EmptyString
      | rest' => String a rest'
      end
  end.

(** Decimal digits, single underscores allowed between digits. *)
Fixpoint parse_digits (acc : Z) (after_digit : bool) (s : string) : option Z :=
  match s with
  | EmptyString => if after_digit then Some acc else None
  | String a rest =>
      match digit_of a with
      | Some d => parse_digits (10 * acc + d) true rest
      | None =>
          if Ascii.eqb a "_"%char && after_digit
          then parse_digits acc false rest
          else None
      end
  end.

(** [int(s)]: [None] stands for [ValueError]. *)
Definition py_int (s : string) : option Z :=
  match lstrip (rstrip s) with
  | String "+"%char rest => parse_digits 0 false rest
  | String "-"%char rest => Z.opp <$> parse_digits 0 false rest
  | body => parse_digits 0 false body
  end.

(** [s.split(':')[0]] *)
Fixpoint before_colon (s : string) : string :=
  match s with
  | EmptyString => EmptyString
  | String a rest =>
      if Ascii.eqb a ":"%char then EmptyString else String a (before_colon rest)
  end.

(** The [try: int(user_shift_end_str.split(':')[0]) except: 18] block.  A
    NULL column is [None] in Python, whose [.split] raises as well. *)
Definition user_shift_end_hour (user_shift_end_str : option string) : Z :=
  match user_shift_end_str with
  | None => 18
  | Some s => default 18 (py_int (before_colon s))
  end.

(** [f"{x}"] for a nullable text column. *)
Definition fmt (x : option string) : string := default "None" x.

(** *** Tables *)

(** [persons]: the columns the modelled statements read. *)
Record person_row : Type := PersonRow {
  person_id : string;
  p_name : string;
  shift_start : option string;
  shift_end : option string
}.

Record attendance_row : Type := AttendanceRow {
  a_id : Z;
  a_person_id : string;
  a_date : string;
  arrival_time : option string;
  leaving_time : option string;
  status : option string
}.

Record face_log_row : Type := FaceLogRow {
  fl_person_id : string;
  fl_name : string;
  fl_date : string;
  fl_time : string
}.

Record unknown_row : Type := UnknownRow {
  snapshot_path : string;
  u_face_encoding : encoding
}.

Record db : Type := Db {
  persons : list person_row;
  attendance : list attendance_row;
  next_attendance_id : Z;
  face_logs : list face_log_row;
  unknown_faces : list unknown_row
}.

(** What [date.today()] and [datetime.now()] give during one call. *)
Record clock : Type := Clock {
  today : string;          (* date.today().isoformat() *)
  current_date : string;   (* now.strftime('%Y-%m-%d') *)
  current_time : string;   (* now.strftime('%H:%M:%S') *)
  hour : Z                 (* now.hour *)
}.

(** The points of a call at which the MySQL connector can raise
    [mysql.connector.Error]. *)
Inductive statement : Type :=
| SelectShiftEnd | SelectAttendance | InsertAttendance | UpdateLeaving
| InsertFaceLog | InsertUnknown.

Inductive db_step : Type :=
| Connect                 (* get_connection() *)
| Cursor                  (* conn.cursor() *)
| Execute (q : statement) (* cursor.execute(...) *)
| Commit.                 (* conn.commit() *)

(** The faults of one call: the text of the error raised at a step, if
    any. *)
Definition faults : Type := db_step -> option string.

Definition no_fault : faults := fun _ => None.

(** *** Queries *)

(** [SELECT shift_end FROM persons WHERE person_id = %s] + [fetchone()].
    The comparisons of the [WHERE] clauses are equality of strings. *)
Definition select_person (pid : string) (d : db) : option person_row :=
  List.find (fun p => String.eqb (person_id p) pid) (persons d).

Definition is_record (pid date : string) (r : attendance_row) : bool :=
  String.eqb (a_person_id r) pid && String.eqb (a_date r) date.

(** [SELECT id FROM attendance WHERE person_id = %s AND date = %s] +
    [fetchone()] *)
Definition select_attendance (pid date : string) (d : db) : option attendance_row :=
  List.find (is_record pid date) (attendance d).

(** [INSERT INTO attendance (...) VALUES (%s, %s, %s, %s, 'Present')] *)
Definition insert_attendance (pid date time : string) (d : db) : db :=
  {| persons := persons d;
     attendance := attendance d ++
       [ {| a_id := next_attendance_id d; a_person_id := pid; a_date := date;
            arrival_time := Some time; leaving_time := Some time;
            status := Some "Present" |} ];
     next_attendance_id := next_attendance_id d + 1;
     face_logs := face_logs d;
     unknown_faces := unknown_faces d |}.

Definition set_leaving (time : string) (r : attendance_row) : attendance_row :=
  {| a_id := a_id r; a_person_id := a_person_id r; a_date := a_date r;
     arrival_time := arrival_time r; leaving_time := Some time;
     status := status r |}.

(** [UPDATE attendance SET leaving_time = %s WHERE person_id = %s AND date = %s] *)
Definition update_leaving (pid date time : string) (d : db) : db :=
  {| persons := persons d;
     attendance :=
       List.map (fun r => if is_record pid date r then set_leaving time r else r)
                (attendance d);
     next_attendance_id := next_attendance_id d;
     face_logs := face_logs d;
     unknown_faces := unknown_faces d |}.

Definition insert_face_log (pid nm date time : string) (d : db) : db :=
  {| persons := persons d;
     attendance := attendance d;
     next_attendance_id := next_attendance_id d;
     face_logs := face_logs d ++ [FaceLogRow pid nm date time];
     unknown_faces := unknown_faces d |}.

Definition insert_unknown (path : string) (enc : encoding) (d : db) : db :=
  {| persons := persons d;
     attendance := attendance d;
     next_attendance_id := next_attendance_id d;
     face_logs := face_logs d;
     unknown_faces := unknown_faces d ++ [UnknownRow path enc] |}.

(** *** The operations of [DatabaseManager] *)

(** A step outside of any [try]: its error leaves the function. *)
Definition unguarded {A} (f : faults) (s : db_step) (d : db)
    (k : result A * db) : result A * db :=
  match f s with
  | Some err => (Raised err, d)
  | None => k
  end.

(** A step inside [try: ... except mysql.connector.Error as err:], the
    handler's value being [on_error err]; nothing was committed. *)
Definition guarded {A} (f : faults) (s : db_step) (d : db)
    (on_error : string -> A) (k : result A * db) : result A * db :=
  match f s with
  | Some err => (Returned (on_error err), d)
  | None => k
  end.

Definition db_error (err : string) : string := "DB Error: " +:+ err.

(** [sync_daily_attendance] *)
Definition sync_daily_attendance (c : clock) (f : faults) (pid : string) (d : db)
    : result string * db :=
  unguarded f Connect d (
  unguarded f Cursor d (
  guarded f (Execute SelectShiftEnd) d db_error (
  match select_person pid d with
  | None => (Returned "Error: Person not found", d)
  | Some person_data =>
      let user_shift_end_str := shift_end person_data in
      let hour_end := user_shift_end_hour user_shift_end_str in
      guarded f (Execute SelectAttendance) d db_error (
      match select_attendance pid (today c) d with
      | None =>
          guarded f (Execute InsertAttendance) d db_error (
          guarded f Commit d db_error (
            (Returned ("LOGIN: " +:+ current_time c),
             insert_attendance pid (today c) (current_time c) d)))
      | Some _ =>
          guarded f (Execute UpdateLeaving) d db_error (
          guarded f Commit d db_error (
            (Returned
               (if hour_end <=? hour c
                then "LOGOUT UPDATE: " +:+ current_time c
                else "Shift Ongoing (Ends " +:+ fmt user_shift_end_str +:+ ")"),
             update_leaving pid (today c) (current_time c) d)))
      end)
  end))).

(** [log_raw_detection]: the connection is opened before the [try]; inside
    it every exception is printed and dropped.  A [person_id] without a
    [persons] row violates the foreign key, which is such an exception. *)
Definition log_raw_detection (c : clock) (f : faults) (pid nm : string) (d : db)
    : result unit * db :=
  unguarded f Connect d (
  unguarded f Cursor d (
  guarded f (Execute InsertFaceLog) d (fun _ => tt) (
  match select_person pid d with
  | None => (Returned tt, d)
  | Some _ =>
      guarded f Commit d (fun _ => tt) (
        (Returned tt, insert_face_log pid nm (current_date c) (current_time c) d))
  end))).

(** [log_unknown_person] *)
Definition log_unknown_person (f : faults) (path : string) (enc : encoding) (d : db)
    : result bool * db :=
  unguarded f Connect d (
  unguarded f Cursor d (
  guarded f (Execute InsertUnknown) d (fun _ => false) (
  guarded f Commit d (fun _ => false) (
    (Returned true, insert_unknown path enc d))))).

(** *** Person management, statistics *)

(** The operations below run one statement each, or only read; these are
    the points at which they can fail, with the text of the error. *)
Record op_faults : Type := OpFaults {
  at_connect : option string;   (* get_connection() *)
  at_cursor : option string;    (* conn.cursor() *)
  at_execute : option string;   (* cursor.execute(...), other than a duplicate key *)
  at_commit : option string     (* conn.commit() *)
}.

Definition no_op_fault : op_faults := OpFaults None None None None.

(** [add_person], [update_person] and [delete_person] open the connection
    inside their [try] and name [conn] in their [finally]: when
    [get_connection] raises, the handler's [return] is overtaken by the
    [UnboundLocalError] of the [finally] block. *)
Definition unbound_conn : string :=
  "UnboundLocalError: local variable 'conn' referenced before assignment".

Definition has_person (pid : string) (d : db) : bool :=
  existsb (fun p => String.eqb (person_id p) pid) (persons d).

Definition set_persons (ps : list person_row) (d : db) : db :=
  {| persons := ps;
     attendance := attendance d;
     next_attendance_id := next_attendance_id d;
     face_logs := face_logs d;
     unknown_faces := unknown_faces d |}.

(** [add_person]: the primary key rejects an id that is taken
    ([IntegrityError]).  The columns of [persons] that no modelled
    statement reads (email, department, registered_date, face_encoding) are
    not kept. *)
Definition add_person (f : op_faults) (pid nm : string) (face_encoding : encoding)
    (email department : option string) (s_start s_end : string) (d : db)
    : result (bool * string) * db :=
  match at_connect f with
  | Some _ => (Raised unbound_conn, d)
  | None =>
      match at_cursor f with
      | Some err => (Returned (false, err), d)
      | None =>
          match at_execute f with
          | Some err => (Returned (false, err), d)
          | None =>
              if has_person pid d then
                (Returned (false, "Person ID already exists"), d)
              else
                match at_commit f with
                | Some err => (Returned (false, err), d)
                | None =>
                    (Returned (true, "Person added successfully"),
                     set_persons
                       (persons d ++ [PersonRow pid nm (Some s_start) (Some s_end)])
                       d)
                end
          end
      end
  end.

(** [update_person] *)
Definition update_person (f : op_faults) (pid nm : string)
    (email dept : option string) (s_start s_end : string) (d : db)
    : result (bool * string) * db :=
  match at_connect f with
  | Some _ => (Raised unbound_conn, d)
  | None =>
      match at_cursor f with
      | Some err => (Returned (false, err), d)
      | None =>
          match at_execute f with
          | Some err => (Returned (false, err), d)
          | None =>
              match at_commit f with
              | Some err => (Returned (false, err), d)
              | None =>
                  (Returned (true, "Update Successful"),
                   set_persons
                     (List.map
                        (fun p => if String.eqb (person_id p) pid
                                  then PersonRow (person_id p) nm
                                         (Some s_start) (Some s_end)
                                  else p)
                        (persons d))
                     d)
              end
          end
      end
  end.

(** [DELETE FROM persons WHERE person_id=%s]; [attendance] and [face_logs]
    reference [persons] with [ON DELETE CASCADE]. *)
Definition delete_rows (pid : string) (d : db) : db :=
  {| persons :=
       List.filter (fun p => negb (String.eqb (person_id p) pid)) (persons d);
     attendance :=
       List.filter (fun r => negb (String.eqb (a_person_id r) pid)) (attendance d);
     next_attendance_id := next_attendance_id d;
     face_logs :=
       List.filter (fun l => negb (String.eqb (fl_person_id l) pid)) (face_logs d);
     unknown_faces := unknown_faces d |}.

(** [delete_person] *)
Definition delete_person (f : op_faults) (pid : string) (d : db)
    : result (bool * string) * db :=
  match at_connect f with
  | Some _ => (Raised unbound_conn, d)
  | None =>
      match at_cursor f with
      | Some err => (Returned (false, err), d)
      | None =>
          match at_execute f with
          | Some err => (Returned (false, err), d)
          | None =>
              match at_commit f with
              | Some err => (Returned (false, err), d)
              | None => (Returned (true, "Deleted Successfully"), delete_rows pid d)
              end
          end
      end
  end.

(** The dict [get_statistics] returns. *)
Record statistics : Type := Statistics {
  total_persons : nat;
  present_today : nat
}.

(** [get_statistics]: two [SELECT COUNT( * )], no [try]; [at_execute] is the
    error of the first of them that fails. *)
Definition get_statistics (today_iso : string) (f : op_faults) (d : db)
    : result statistics :=
  match at_connect f with
  | Some err => Raised err
  | None =>
      match at_cursor f with
      | Some err => Raised err
      | None =>
          match at_execute f with
          | Some err => Raised err
          | None =>
              Returned
                {| total_persons := length (persons d);
                   present_today :=
                     length (List.filter
                               (fun r => String.eqb (a_date r) today_iso)
                               (attendance d)) |}
          end
      end
  end.

End Database.

(** ** core/attendance_tracker.py *)
Module Attendance.
Import Database.

(** What a call hands to its collaborators, in the order it does so. *)
Inductive event : Type :=
| RawLogged (pid : string) (ts : Q)            (* log_raw_detection returned *)
| Synced (pid : string) (ts : Q) (msg : string)
                                               (* sync_daily_attendance returned msg *)
| Spoke (text : string)                        (* voice.speak(text) *)
| UnknownLogged (path : string) (ok : bool)    (* log_unknown_person returned ok *)
| Alerted (ts : Q).                            (* alert thread started *)

Record tracker : Type := Tracker {
  db_manager : db;
  last_log_time : gmap string Q;
  last_attendance_time : gmap string Q;
  last_unknown_alert_time : Q
}.

(** [__init__] *)
Definition init (d : db) : tracker :=
  {| db_manager := d;
     last_log_time := ∅;
     last_attendance_time := ∅;
     last_unknown_alert_time := 0%Q |}.

Definition with_db (d : db) (t : tracker) : tracker :=
  {| db_manager := d;
     last_log_time := last_log_time t;
     last_attendance_time := last_attendance_time t;
     last_unknown_alert_time := last_unknown_alert_time t |}.

Definition note_log (pid : string) (ts : Q) (t : tracker) : tracker :=
  {| db_manager := db_manager t;
     last_log_time := <[pid := ts]> (last_log_time t);
     last_attendance_time := last_attendance_time t;
     last_unknown_alert_time := last_unknown_alert_time t |}.

Definition note_attendance (pid : string) (ts : Q) (t : tracker) : tracker :=
  {| db_manager := db_manager t;
     last_log_time := last_log_time t;
     last_attendance_time := <[pid := ts]> (last_attendance_time t);
     last_unknown_alert_time := last_unknown_alert_time t |}.

Definition note_alert (ts : Q) (t : tracker) : tracker :=
  {| db_manager := db_manager t;
     last_log_time := last_log_time t;
     last_attendance_time := last_attendance_time t;
     last_unknown_alert_time := ts |}.

(** [pid not in last or current_ts - last[pid] > gap] *)
Definition due (last : gmap string Q) (pid : string) (current_ts gap : Q) : bool :=
  match last !! pid with
  | None => true
  | Some l => Qgtb (current_ts - l) gap
  end.

(** What one call of [process_recognized_face] reads from outside:
    [time.time()], and the clock and the faults seen by each of the two
    database calls it may make. *)
Record reading : Type := Reading {
  current_ts : Q;
  log_clock : clock;
  log_faults : faults;
  sync_clock : clock;
  sync_faults : faults
}.

(** The voice feedback chosen from the sync message. *)
Definition voice_feedback (person_name msg : string) : list event :=
  if str_in "LOGIN" msg then
    [Spoke ("Welcome, " +:+ person_name +:+ ". Login Successful.")]
  else if str_in "LOGOUT UPDATE" msg then
    [Spoke ("Goodbye, " +:+ person_name +:+ ". Logout Updated.")]
  else [].

(** PART 1 of [process_recognized_face]: raw logging, 90 s gap. *)
Definition raw_logging (r : reading) (pid person_name : string) (t : tracker)
    : result unit * tracker * list event :=
  if due (last_log_time t) pid (current_ts r) 90 then
    match log_raw_detection (log_clock r) (log_faults r) pid person_name
            (db_manager t) with
    | (Raised err, d) => (Raised err, with_db d t, [])
    | (Returned _, d) =>
        (Returned tt, note_log pid (current_ts r) (with_db d t),
         [RawLogged pid (current_ts r)])
    end
  else (Returned tt, t, []).

(** PART 2 of [process_recognized_face]: attendance sync, 5 s gap. *)
Definition attendance_logic (r : reading) (pid person_name : string) (t : tracker)
    : result (bool * option string) * tracker * list event :=
  if due (last_attendance_time t) pid (current_ts r) 5 then
    match sync_daily_attendance (sync_clock r) (sync_faults r) pid
            (db_manager t) with
    | (Raised err, d) => (Raised err, with_db d t, [])
    | (Returned msg, d) =>
        (Returned (true, Some (person_name +:+ ": " +:+ msg)),
         note_attendance pid (current_ts r) (with_db d t),
         Synced pid (current_ts r) msg :: voice_feedback person_name msg)
    end
  else (Returned (true, None), t, []).

(** [process_recognized_face] *)
Definition process_recognized_face (r : reading) (pid person_name : string)
    (t : tracker) : result (bool * option string) * tracker * list event :=
  match raw_logging r pid person_name t with
  | (Raised err, t1, ev1) => (Raised err, t1, ev1)
  | (Returned _, t1, ev1) =>
      let '(res, t2, ev2) := attendance_logic r pid person_name t1 in
      (res, t2, (ev1 ++ ev2)%list)
  end.

(** What one call of [process_unknown_person] reads from outside. *)
Record unknown_reading : Type := UnknownReading {
  unknown_faults : faults;
  unknown_ts : Q
}.

(** [process_unknown_person] *)
Definition process_unknown_person (r : unknown_reading) (snapshot_path : string)
    (enc : encoding) (t : tracker) : result bool * tracker * list event :=
  match log_unknown_person (unknown_faults r) snapshot_path enc (db_manager t) with
  | (Raised err, d) => (Raised err, with_db d t, [])
  | (Returned ok, d) =>
      let t1 := with_db d t in
      if Qgtb (unknown_ts r - last_unknown_alert_time t1) 15 then
        (Returned ok, note_alert (unknown_ts r) t1,
         [UnknownLogged snapshot_path ok; Alerted (unknown_ts r)])
      else (Returned ok, t1, [UnknownLogged snapshot_path ok])
  end.

(** *** Sequences of calls on one tracker *)

Record recognized_call : Type := RecognizedCall {
  rc_reading : reading;
  rc_person_id : string;
  rc_person_name : string
}.

Record unknown_call : Type := UnknownCall {
  uc_reading : unknown_reading;
  uc_snapshot_path : string;
  uc_encoding : encoding
}.

Inductive call : Type :=
| Recognized (c : recognized_call)
| Unknown (c : unknown_call).

Definition invoke (c : call) (t : tracker) : tracker * list event :=
  match c with
  | Recognized c =>
      let '(_, t', ev) :=
        process_recognized_face (rc_reading c) (rc_person_id c)
          (rc_person_name c) t in
      (t', ev)
  | Unknown c =>
      let '(_, t', ev) :=
        process_unknown_person (uc_reading c) (uc_snapshot_path c)
          (uc_encoding c) t in
      (t', ev)
  end.

(** The events of each call of a sequence, and the tracker left behind. *)
Fixpoint invocations (cs : list call) (t : tracker) : list (list event) * tracker :=
  match cs with
  | [] => ([], t)
  | c :: rest =>
      let '(t1, ev) := invoke c t in
      let '(evs, t2) := invocations rest t1 in
      (ev :: evs, t2)
  end.

(** The call made an attendance sync for [pid]. *)
Definition syncs (pid : string) (ev : list event) : bool :=
  existsb (fun e => match e with
                    | Synced p _ _ => String.eqb p pid
                    | _ => false
                    end) ev.

(** The call started the unknown-person alert. *)
Definition alerts (ev : list event) : bool :=
  existsb (fun e => match e with Alerted _ => true | _ => false end) ev.

(** [time.time()] as read by a call. *)
Definition call_ts (c : call) : Q :=
  match c with
  | Recognized c => current_ts (rc_reading c)
  | Unknown c => unknown_ts (uc_reading c)
  end.

(** The call wrote a raw detection log for [pid]. *)
Definition raw_logs (pid : string) (ev : list event) : bool :=
  existsb (fun e => match e with
                    | RawLogged p _ => String.eqb p pid
                    | _ => false
                    end) ev.

End Attendance.

(** ** core/video_processor.py *)
Module Video.

(** *** Boxes *)

(** An [xyxy] box. *)
Record box : Type := Box { bx1 : Q; by1 : Q; bx2 : Q; by2 : Q }.

(** Python's [max(a, b)] and [min(a, b)]: the first argument on a tie. *)
Definition py_max (a b : Q) : Q := if Qgtb b a then b else a.
Definition py_min (a b : Q) : Q := if Qgtb a b then b else a.

(** [calculate_iou] *)
Definition calculate_iou (boxA boxB : box) : Q :=
  let xA := py_max (bx1 boxA) (bx1 boxB) in
  let yA := py_max (by1 boxA) (by1 boxB) in
  let xB := py_min (bx2 boxA) (bx2 boxB) in
  let yB := py_min (by2 boxA) (by2 boxB) in
  let interArea := (py_max 0 (xB - xA) * py_max 0 (yB - yA))%Q in
  let boxAArea := ((bx2 boxA - bx1 boxA) * (by2 boxA - by1 boxA))%Q in
  let boxBArea := ((bx2 boxB - bx1 boxB) * (by2 boxB - by1 boxB))%Q in
  (interArea / (boxAArea + boxBArea - interArea + (1 # 1000000)))%Q.

(** [int(x)] on a float: truncation towards zero. *)
Definition py_trunc (x : Q) : Z := Z.quot (Qnum x) (Z.pos (Qden x)).

(** Length of the numpy slice [a:b] along an axis of length [n]. *)
Definition slice_bound (n k : Z) : Z :=
  if k <? 0 then Z.max 0 (k + n) else Z.min k n.

Definition slice_len (n a b : Z) : Z :=
  Z.max 0 (slice_bound n b - slice_bound n a).

(** [frame.shape] of a colour image. *)
Record shape : Type := Shape { height : Z; width : Z; channels : Z }.

(** [face_crop.size] for the crop of [current_bbox] clamped to the frame. *)
Definition face_crop_size (sh : shape) (current_bbox : box) : Z :=
  let x1 := Z.max 0 (py_trunc (bx1 current_bbox)) in
  let y1 := Z.max 0 (py_trunc (by1 current_bbox)) in
  let x2 := Z.min (width sh) (py_trunc (bx2 current_bbox)) in
  let y2 := Z.min (height sh) (py_trunc (by2 current_bbox)) in
  slice_len (height sh) y1 y2 * slice_len (width sh) x1 x2 * channels sh.

(** *** Inputs of a frame *)

(** A detected face (insightface [Face]): the fields the loop reads. *)
Record face : Type := Face {
  bbox : box;
  det_score : Q;
  embedding : encoding
}.

(** A row of [tracked_detections], as ByteTrack returns them. *)
Record tracked : Type := Tracked {
  tracker_id : Z;
  xyxy : box
}.

(** All that [process_frame] takes from outside the processor: the frame,
    the detector's faces, the tracker's rows, the registry held by the
    face handler at that time, and the clock, [now_stamp i] being
    [datetime.now().strftime('%Y%m%d_%H%M%S_%f')] in iteration [i]. *)
Record frame_input : Type := FrameInput {
  frame_shape : shape;
  faces : list face;
  tracked_detections : list tracked;
  face_handler : FaceStore.handler;
  now_stamp : nat -> string
}.

(** *** The processor *)

Record processor : Type := Processor {
  tracker_id_to_person : gmap Z (string * string);
  logged_unknown_ids : gset Z
}.

(** [__init__] *)
Definition init : processor :=
  {| tracker_id_to_person := ∅; logged_unknown_ids := ∅ |}.

(** [clear_cache] *)
Definition clear_cache (p : processor) : processor :=
  {| tracker_id_to_person := ∅; logged_unknown_ids := ∅ |}.

(** A snapshot taken in CASE 3: [cv2.imwrite(filepath, face_crop)] followed
    by [unknown_person_callback(filepath, best_face.embedding)]. *)
Record snapshot : Type := Snapshot {
  snap_track : Z;
  snap_path : string;
  snap_embedding : encoding
}.

Definition UNKNOWN_FACES_DIR : string := "data/unknown_faces".

(** [os.path.join(UNKNOWN_FACES_DIR, f"unknown_{timestamp}.jpg")] *)
Definition snapshot_path (timestamp : string) : string :=
  UNKNOWN_FACES_DIR +:+ "/" +:+ "unknown_" +:+ timestamp +:+ ".jpg".

(** The search for the detection that overlaps the track best. *)
Definition best_face_step (current_bbox : box) (acc : option face * Q) (f : face)
    : option face * Q :=
  let iou := calculate_iou current_bbox (bbox f) in
  if Qgtb iou (1 # 2) && Qgtb iou (snd acc) then (Some f, iou) else acc.

Definition find_best_face (current_bbox : box) (fs : list face) : option face :=
  fst (fold_left (best_face_step current_bbox) fs (None, 0%Q)).

Section Frames.

(** The state of whatever the callbacks act on. *)
Context {W : Type}.

Variable calculate_similarity : encoding -> encoding -> Q.

(** The two optional callbacks of [process_frame]. *)
Variable mark_attendance_callback :
  option (string -> string -> W -> result (bool * option string) * W).
Variable unknown_person_callback :
  option (string -> encoding -> W -> result unit * W).

(** The variables the loop over the tracked rows changes. *)
Record loop_state : Type := LoopState {
  proc : processor;
  world : W;
  labels : list string;
  messages : list string;
  snapshots : list snapshot
}.

Definition set_world (w : W) (s : loop_state) : loop_state :=
  {| proc := proc s; world := w; labels := labels s;
     messages := messages s; snapshots := snapshots s |}.

Definition add_message (m : string) (s : loop_state) : loop_state :=
  {| proc := proc s; world := world s; labels := labels s;
     messages := messages s ++ [m]; snapshots := snapshots s |}.

Definition add_label (l : string) (s : loop_state) : loop_state :=
  {| proc := proc s; world := world s; labels := labels s ++ [l];
     messages := messages s; snapshots := snapshots s |}.

Definition bind_track (tid : Z) (pid nm : string) (s : loop_state) : loop_state :=
  {| proc := {| tracker_id_to_person :=
                  <[tid := (pid, nm)]> (tracker_id_to_person (proc s));
                logged_unknown_ids := logged_unknown_ids (proc s) |};
     world := world s; labels := labels s;
     messages := messages s; snapshots := snapshots s |}.

Definition add_snapshot (sn : snapshot) (s : loop_state) : loop_state :=
  {| proc := proc s; world := world s; labels := labels s;
     messages := messages s; snapshots := snapshots s ++ [sn] |}.

Definition mark_logged (tid : Z) (s : loop_state) : loop_state :=
  {| proc := {| tracker_id_to_person := tracker_id_to_person (proc s);
                logged_unknown_ids := {[tid]} ∪ logged_unknown_ids (proc s) |};
     world := world s; labels := labels s;
     messages := messages s; snapshots := snapshots s |}.

(** [if mark_attendance_callback: success, message = ...(person_id,
    person_name); if success and message and <keep message>:
    messages.append(message)].  [Some err] is an exception leaving
    the loop. *)
Definition update_attendance (keep : string -> bool) (pid nm : string)
    (s : loop_state) : option string * loop_state :=
  match mark_attendance_callback with
  | None => (None, s)
  | Some callback =>
      match callback pid nm (world s) with
      | (Raised err, w) => (Some err, set_world w s)
      | (Returned (success, message), w) =>
          let s1 := set_world w s in
          match message with
          | Some m =>
              if success && truthy m && keep m
              then (None, add_message m s1) else (None, s1)
          | None => (None, s1)
          end
      end
  end.

(** CASE 3: unknown person logging. *)
Definition log_unknown (inp : frame_input) (i : nat) (t : tracked)
    (best : face) (s : loop_state) : option string * loop_state :=
  match unknown_person_callback with
  | None => (None, s)
  | Some callback =>
      if decide (tracker_id t ∈ logged_unknown_ids (proc s)) then (None, s)
      else
        let filepath := snapshot_path (now_stamp inp i) in
        if 0 <? face_crop_size (frame_shape inp) (xyxy t) then
          let s1 := add_snapshot
                      (Snapshot (tracker_id t) filepath (embedding best)) s in
          match callback filepath (embedding best) (world s1) with
          | (Raised err, w) => (Some err, set_world w s1)
          | (Returned _, w) =>
              (None,
               add_message ("Logged Unknown Person #" +:+ pretty (tracker_id t))
                 (mark_logged (tracker_id t) (set_world w s1)))
          end
        else (None, s)
  end.

(** The body of [for i in range(len(tracked_detections))]. *)
Definition handle_track (inp : frame_input) (i : nat) (t : tracked)
    (s : loop_state) : option string * loop_state :=
  match tracker_id_to_person (proc s) !! tracker_id t with
  | Some (person_id, person_name) =>
      (* CASE 1: existing track *)
      let label := person_name +:+ " (" +:+ person_id +:+ ")" in
      match update_attendance (fun m => negb (str_in "Tracking" m))
              person_id person_name s with
      | (Some err, s1) => (Some err, s1)
      | (None, s1) => (None, add_label label s1)
      end
  | None =>
      (* CASE 2: new track *)
      match find_best_face (xyxy t) (faces inp) with
      | Some best_face =>
          let '(person_id, person_name, _) :=
            FaceStore.recognize_face calculate_similarity (face_handler inp)
              (embedding best_face) in
          match person_id with
          | Some pid =>
              if truthy pid then
                let nm := default "None" person_name in
                let s1 := bind_track (tracker_id t) pid nm s in
                match update_attendance (fun _ => true) pid nm s1 with
                | (Some err, s2) => (Some err, s2)
                | (None, s2) =>
                    (None, add_label (nm +:+ " (" +:+ pid +:+ ")") s2)
                end
              else
                match log_unknown inp i t best_face s with
                | (Some err, s1) => (Some err, s1)
                | (None, s1) =>
                    (None, add_label ("Unknown #" +:+ pretty (tracker_id t)) s1)
                end
          | None =>
              match log_unknown inp i t best_face s with
              | (Some err, s1) => (Some err, s1)
              | (None, s1) =>
                  (None, add_label ("Unknown #" +:+ pretty (tracker_id t)) s1)
              end
          end
      | None =>
          (None, add_label ("Tracking #" +:+ pretty (tracker_id t)) s)
      end
  end.

(** The loop over the tracked rows, left at the first exception. *)
Fixpoint for_each_track (inp : frame_input) (i : nat) (ts : list tracked)
    (s : loop_state) : option string * loop_state :=
  match ts with
  | [] => (None, s)
  | t :: rest =>
      match handle_track inp i t s with
      | (Some err, s1) => (Some err, s1)
      | (None, s1) => for_each_track inp (S i) rest s1
      end
  end.

(** What a call of [process_frame] leaves: its value ([labels] drawn on
    the frame, [messages]) or the exception, the processor, the
    callbacks' world and the snapshots taken. *)
Record frame_result : Type := FrameResult {
  outcome : result (list string * list string);
  proc_after : processor;
  world_after : W;
  snapshots_taken : list snapshot
}.

(** [process_frame] *)
Definition process_frame (inp : frame_input) (p : processor) (w : W)
    : frame_result :=
  let '(exn, s) :=
    for_each_track inp 0%nat (tracked_detections inp)
      {| proc := p; world := w; labels := []; messages := [];
         snapshots := [] |} in
  {| outcome := match exn with
                | Some err => Raised err
                | None => Returned (labels s, messages s)
                end;
     proc_after := proc s;
     world_after := world s;
     snapshots_taken := snapshots s |}.

(** What the capture loop leaves: the number of frames completed, the
    exception that ended it (if one did), the processor, the callbacks'
    world and all the snapshots taken. *)
Record run : Type := Run {
  completed : nat;
  exception : option string;
  final_proc : processor;
  final_world : W;
  taken : list snapshot
}.

(** The capture loop of [main.py] ([while True: ... process_frame(...)]),
    on the frames the camera delivers: an exception of [process_frame]
    leaves the loop. *)
Fixpoint frame_loop (frames : list frame_input) (p : processor) (w : W) : run :=
  match frames with
  | [] =>
      {| completed := 0%nat; exception := None; final_proc := p;
         final_world := w; taken := [] |}
  | inp :: rest =>
      let r := process_frame inp p w in
      match outcome r with
      | Raised err =>
          {| completed := 0%nat; exception := Some err;
             final_proc := proc_after r; final_world := world_after r;
             taken := snapshots_taken r |}
      | Returned _ =>
          let rest_run := frame_loop rest (proc_after r) (world_after r) in
          {| completed := S (completed rest_run);
             exception := exception rest_run;
             final_proc := final_proc rest_run;
             final_world := final_world rest_run;
             taken := snapshots_taken r ++ taken rest_run |}
      end
  end.

End Frames.

(** Number of snapshots taken for a track. *)
Definition snapshots_of (tid : Z) (snaps : list snapshot) : nat :=
  length (List.filter (fun sn => Z.eqb (snap_track sn) tid) snaps).

End Video.


(** ** main.py: the capture loop with its callbacks *)
Module Main.

(** What the two callbacks of [start_attendance] act on: the attendance
    tracker, and the events it has produced so far.  [calls] counts the
    callback calls made, and indexes the readings below. *)
Record world : Type := World {
  tracker : Attendance.tracker;
  calls : nat;
  heard : list Attendance.event
}.

Section Wiring.

(** What the [n]-th callback call reads from the clock and the database
    server. *)
Variable recognized_reading : nat -> Attendance.reading.
Variable unknown_reading : nat -> Attendance.unknown_reading.

(** [mark_attendance_callback=self.attendance_tracker.process_recognized_face] *)
Definition mark_attendance (pid nm : string) (w : world)
    : result (bool * option string) * world :=
  let '(res, t, ev) :=
    Attendance.process_recognized_face (recognized_reading (calls w))
      pid nm (tracker w) in
  (res, {| tracker := t; calls := S (calls w); heard := heard w ++ ev |}).

(** [unknown_person_callback=self.attendance_tracker.process_unknown_person] *)
Definition unknown_person (path : string) (enc : encoding) (w : world)
    : result unit * world :=
  let '(res, t, ev) :=
    Attendance.process_unknown_person (unknown_reading (calls w))
      path enc (tracker w) in
  (match res with Returned _ => Returned tt | Raised err => Raised err end,
   {| tracker := t; calls := S (calls w); heard := heard w ++ ev |}).

(** The [while True] loop of [start_attendance]. *)
Definition start_attendance (calculate_similarity : encoding -> encoding -> Q)
    (frames : list Video.frame_input) (p : Video.processor) (w : world) :=
  Video.frame_loop calculate_similarity (Some mark_attendance)
    (Some unknown_person) frames p w.

End Wiring.

(** The duplicate check of [register_person_interactive]:
    [exist_id is not None and sim > 0.5]. *)
Definition duplicate_detected (calculate_similarity : encoding -> encoding -> Q)
    (h : FaceStore.handler) (face_encoding : encoding) : bool :=
  match FaceStore.recognize_face calculate_similarity h face_encoding with
  | (Some _, _, sim) => Qgtb sim (1 # 2)
  | (None, _, _) => false
  end.

End Main.


(** ** core/registration.py *)
Module Registration.

(** The two stores a registration acts on. *)
Record system : Type := System {
  db_manager : Database.db;
  face_handler : FaceStore.handler
}.

(** [register_person_from_image].  [image] is what [cv2.imread] and the
    detector give: [None] for a file that cannot be read, otherwise the
    embeddings of the faces found. *)
Definition register_person_from_image (image : option (list encoding))
    (f : Database.op_faults) (io : FaceStore.write_outcome)
    (person_id name : string) (email department : option string) (s : system)
    : result (bool * string) * system :=
  match image with
  | None => (Returned (false, "Could not read image file"), s)
  | Some found =>
      match FaceStore.extract_face_encoding found with
      | (None, message) => (Returned (false, message), s)
      | (Some face_encoding, _) =>
          match Database.add_person f person_id name face_encoding email
                  department "09:00" "18:00" (db_manager s) with
          | (Raised err, d) =>
              (Raised err, {| db_manager := d; face_handler := face_handler s |})
          | (Returned (success, message), d) =>
              if success then
                (Returned (true, message),
                 {| db_manager := d;
                    face_handler :=
                      snd (FaceStore.add_face_encoding io person_id name
                             face_encoding (face_handler s)) |})
              else
                (Returned (false, message),
                 {| db_manager := d; face_handler := face_handler s |})
          end
      end
  end.

(** [RegistrationModule.delete_person] *)
Definition delete_person (f : Database.op_faults) (io : FaceStore.write_outcome)
    (person_id : string) (s : system) : result (bool * string) * system :=
  match Database.delete_person f person_id (db_manager s) with
  | (Raised err, d) =>
      (Raised err, {| db_manager := d; face_handler := face_handler s |})
  | (Returned (success, message), d) =>
      if success then
        (Returned (true, message),
         {| db_manager := d;
            face_handler :=
              snd (FaceStore.remove_face_encoding io person_id (face_handler s)) |})
      else
        (Returned (false, message),
         {| db_manager := d; face_handler := face_handler s |})
  end.

End Registration.

(** ** Concrete data used by the examples *)
Module Scenario.
Import FaceStore.

(** Cosine similarity of embeddings of length one: their dot product. *)
Fixpoint dot (a b : encoding) : Q :=
  match a, b with
  | x :: a', y :: b' => (x * y + dot a' b')%Q
  | _, _ => 0%Q
  end.

Definition alice : encoding := [1%Q; 0%Q].
Definition bob : encoding := [0%Q; 1%Q].
Definition carol : encoding := [(3 # 5)%Q; (4 # 5)%Q].

(** Two registered people, threshold 0.6. *)
Definition office : handler :=
  {| similarity_threshold := (6 # 10)%Q;
     registered_faces := [("E001", FaceData "Alice" alice);
                          ("E002", FaceData "Bob" bob)];
     face_db := Pickled [("E001", FaceData "Alice" alice);
                         ("E002", FaceData "Bob" bob)] |}.

(** The registry after Alice was deleted and Carol registered. *)
Definition office_later : handler :=
  {| similarity_threshold := (6 # 10)%Q;
     registered_faces := [("E002", FaceData "Bob" bob);
                          ("E003", FaceData "Carol" carol)];
     face_db := Pickled [("E002", FaceData "Bob" bob);
                         ("E003", FaceData "Carol" carol)] |}.

(** One registered employee, nobody seen yet today. *)
Definition staff : Database.db :=
  {| Database.persons :=
       [Database.PersonRow "E001" "Alice" (Some "09:00") (Some "18:00")];
     Database.attendance := [];
     Database.next_attendance_id := 1;
     Database.face_logs := [];
     Database.unknown_faces := [] |}.

Definition at_17_00 : Database.clock :=
  {| Database.today := "2024-03-01"; Database.current_date := "2024-03-01";
     Database.current_time := "17:00:00"; Database.hour := 17 |}.

Definition at_18_30 : Database.clock :=
  {| Database.today := "2024-03-01"; Database.current_date := "2024-03-01";
     Database.current_time := "18:30:00"; Database.hour := 18 |}.

(** The database after Alice's first sync of the day, at 17:00. *)
Definition staff_arrived : Database.db :=
  Database.insert_attendance "E001" "2024-03-01" "17:00:00" staff.


(** The MySQL server cannot be reached. *)
Definition unreachable : string :=
  "2003: Can't connect to MySQL server on 'localhost:3306'".

Definition server_down : Database.faults :=
  fun s =>
    match s with
    | Database.Connect => Some unreachable
    | _ => None
    end.

(** Alice is recognized when [time.time()] reads [ts]; the database
    answers, its clock at 17:00. *)
Definition seen_at (ts : Q) : Attendance.call :=
  Attendance.Recognized
    {| Attendance.rc_reading :=
         {| Attendance.current_ts := ts;
            Attendance.log_clock := at_17_00;
            Attendance.log_faults := Database.no_fault;
            Attendance.sync_clock := at_17_00;
            Attendance.sync_faults := Database.no_fault |};
       Attendance.rc_person_id := "E001";
       Attendance.rc_person_name := "Alice" |}.

(** A snapshot of a stranger is handed over at [ts]. *)
Definition stranger_at (ts : Q) : Attendance.call :=
  Attendance.Unknown
    {| Attendance.uc_reading :=
         {| Attendance.unknown_faults := Database.no_fault;
            Attendance.unknown_ts := ts |};
       Attendance.uc_snapshot_path := "data/unknown_faces/unknown_1.jpg";
       Attendance.uc_encoding := carol |}.

(** Alice stays in front of the camera: recognized at 1000 s, 1003 s and
    1006 s. *)
Definition three_sightings : list Attendance.call :=
  [seen_at 1000; seen_at 1003; seen_at 1006].

(** A 640x480 frame with one face in it, followed as track 7. *)
Definition whole : Video.box := Video.Box 0 0 100 100.

Definition frame_with (h : FaceStore.handler) (enc : encoding) : Video.frame_input :=
  {| Video.frame_shape := Video.Shape 480 640 3;
     Video.faces := [Video.Face whole (9 # 10) enc];
     Video.tracked_detections := [Video.Tracked 7 whole];
     Video.face_handler := h;
     Video.now_stamp := fun _ => "20240301_170000_000000" |}.

(** The processor once track 7 has been recognized as Alice, no callbacks
    attached. *)
Definition knows_alice : Video.processor :=
  Video.final_proc
    (Video.frame_loop dot None None [frame_with office alice] Video.init tt).

(** The server answers the raw log and is gone when the sync starts. *)
Definition server_lost : nat -> Attendance.reading :=
  fun _ =>
    {| Attendance.current_ts := 1000;
       Attendance.log_clock := at_17_00;
       Attendance.log_faults := Database.no_fault;
       Attendance.sync_clock := at_17_00;
       Attendance.sync_faults := server_down |}.

Definition quiet : nat -> Attendance.unknown_reading :=
  fun _ =>
    {| Attendance.unknown_faults := Database.no_fault;
       Attendance.unknown_ts := 1000 |}.

Definition fresh_world : Main.world :=
  {| Main.tracker := Attendance.init staff; Main.calls := 0;
     Main.heard := [] |}.

(** Somebody who resembles nobody in the office. *)
Definition stranger : encoding := [(-1)%Q; 0%Q].

End Scenario.

(** ** Statements of the specification that are compared with the code *)
Module Spec.

(** [remove] reports whether the id was registered. *)
Definition remove_reports_presence : Prop :=
  forall (io : FaceStore.write_outcome) (pid : string) (h : FaceStore.handler),
    fst (FaceStore.remove_face_encoding io pid h)
    = FaceStore.dict_mem pid (FaceStore.registered_faces h).

(** Of two invocations of [process_recognized_face] for one person within
    5 seconds, the second performs no attendance sync. *)
Definition second_call_never_syncs : Prop :=
  forall (cs : list Attendance.call) (d : Database.db) (pid : string)
         (i j : nat) (ci cj : Attendance.recognized_call)
         (ev : list Attendance.event),
    (i < j)%nat ->
    cs !! i = Some (Attendance.Recognized ci) ->
    cs !! j = Some (Attendance.Recognized cj) ->
    Attendance.rc_person_id ci = pid ->
    Attendance.rc_person_id cj = pid ->
    (0 <= Attendance.current_ts (Attendance.rc_reading cj)
          - Attendance.current_ts (Attendance.rc_reading ci) <= 5)%Q ->
    fst (Attendance.invocations cs (Attendance.init d)) !! j = Some ev ->
    Attendance.syncs pid ev = false.

End Spec.

(** ** Invariants used in the proofs *)
Module Invariant.

(** What the scan of [recognize_face] knows after a prefix [seen] of the
    registry: a candidate is an entry of the prefix scoring above the
    threshold and strictly above everything before it, every entry seen
    scores at most the running maximum unless it is at or below the
    threshold, and without a candidate the scan is as it started. *)
Record scanned (sim : encoding -> encoding -> Q) (thr : Q) (query : encoding)
    (seen : FaceStore.registry) (acc : FaceStore.scan) : Prop := {
  sc_candidate :
    forall pid, FaceStore.recognized_id acc = Some pid ->
      exists i d, seen !! i = Some (pid, d)
        /\ FaceStore.recognized_name acc = Some (FaceStore.name d)
        /\ FaceStore.max_similarity acc = sim query (FaceStore.face_encoding d)
        /\ (thr < FaceStore.max_similarity acc)%Q
        /\ forall j e, (j < i)%nat -> seen !! j = Some e ->
             (sim query (FaceStore.face_encoding (snd e))
              < FaceStore.max_similarity acc)%Q;
  sc_bound :
    forall e, e ∈ seen ->
      (sim query (FaceStore.face_encoding (snd e))
       <= FaceStore.max_similarity acc)%Q
      \/ (sim query (FaceStore.face_encoding (snd e)) <= thr)%Q;
  sc_none :
    FaceStore.recognized_id acc = None ->
      FaceStore.recognized_name acc = None
      /\ FaceStore.max_similarity acc = 0%Q
}.

(** How a stretch of frame processing that takes the processor from [p] to
    [p'], ends with [exn] and takes the snapshots [new] treats track [tid]:
    bindings stay, the set of logged tracks grows, a logged track gets no
    snapshot, and the track gets at most one snapshot, after which -- unless
    an exception ended the stretch -- it is logged. *)
Definition advances (tid : Z) (p : Video.processor) (exn : option string)
    (p' : Video.processor) (new : list Video.snapshot) : Prop :=
  (forall k v, Video.tracker_id_to_person p !! k = Some v ->
               Video.tracker_id_to_person p' !! k = Some v)
  /\ Video.logged_unknown_ids p ⊆ Video.logged_unknown_ids p'
  /\ (tid ∈ Video.logged_unknown_ids p -> Video.snapshots_of tid new = 0%nat)
  /\ (Video.snapshots_of tid new = 0%nat
      \/ (Video.snapshots_of tid new = 1%nat
          /\ (exn = None -> tid ∈ Video.logged_unknown_ids p'))).

(** What the search of [find_best_face] knows after the faces [seen]: the
    face kept overlaps the track by more than 0.5 and [max_iou] is its
    overlap, without a face kept [max_iou] is still 0.0, and every face
    seen overlaps by at most [max_iou], unless by at most 0.5. *)
Definition best_so_far (current_bbox : Video.box) (seen : list Video.face)
    (acc : option Video.face * Q) : Prop :=
  match fst acc with
  | None => snd acc = 0%Q
  | Some f =>
      f ∈ seen
      /\ snd acc = Video.calculate_iou current_bbox (Video.bbox f)
      /\ (1 # 2 < snd acc)%Q
  end
  /\ forall g, g ∈ seen ->
       (Video.calculate_iou current_bbox (Video.bbox g) <= snd acc)%Q
       \/ (Video.calculate_iou current_bbox (Video.bbox g) <= 1 # 2)%Q.

End Invariant.

(** ** The constraints of the schema, and runs of syncs *)
Module Integrity.
Import Database.

Definition person_ids (d : db) : list string := List.map person_id (persons d).

Definition attendance_keys (d : db) : list (string * string) :=
  List.map (fun r => (a_person_id r, a_date r)) (attendance d).

(** The constraints [init_database] declares on the tables. *)
Record consistent (d : db) : Prop := {
  (* persons: person_id PRIMARY KEY *)
  ids_distinct : NoDup (person_ids d);
  (* attendance: UNIQUE KEY unique_attendance (person_id, date) *)
  keys_distinct : NoDup (attendance_keys d);
  (* attendance: FOREIGN KEY (person_id) REFERENCES persons *)
  attendance_refers :
    forall r, r ∈ attendance d -> has_person (a_person_id r) d = true;
  (* face_logs: FOREIGN KEY (person_id) REFERENCES persons *)
  logs_refer :
    forall l, l ∈ face_logs d -> has_person (fl_person_id l) d = true
}.

(** A call of [sync_daily_attendance] with what it reads from outside. *)
Record sync_call : Type := SyncCall {
  sc_clock : clock;
  sc_faults : faults;
  sc_person : string
}.

(** The database after a sequence of syncs. *)
Definition sync_all (calls : list sync_call) (d : db) : db :=
  fold_left
    (fun d c =>
       snd (sync_daily_attendance (sc_clock c) (sc_faults c) (sc_person c) d))
    calls d.

End Integrity.

(** * Properties *)

(** ** Floats and strings *)

Lemma Qgtb_true x y : Qgtb x y = true <-> (y < x)%Q.
Proof.
  unfold Qgtb. rewrite negb_true_iff, <- not_true_iff_false, Qle_bool_iff.
  split; [apply Qnot_le_lt | apply Qlt_not_le].
Qed.

Lemma Qgtb_false x y : Qgtb x y = false <-> (x <= y)%Q.
Proof.
  unfold Qgtb. rewrite negb_false_iff. apply Qle_bool_iff.
Qed.

(** ** FaceStore: nearest match *)
Module FaceStoreFacts.
Import FaceStore.

Section Matcher.

Variable sim : encoding -> encoding -> Q.
Variables (thr : Q) (query : encoding).

Local Abbreviation score e := (sim query (face_encoding (snd e))).
Local Abbreviation scanned := (Invariant.scanned sim thr query).

Lemma scanned_start : scanned [] (Scan 0%Q None None).
Proof.
  split; simpl.
  - discriminate.
  - intros e He. by apply elem_of_nil in He.
  - done.
Qed.

Lemma scanned_step seen acc e :
  scanned seen acc -> scanned (seen ++ [e]) (recognize_step sim thr query acc e).
Proof.
  intros [Hc Hb Hn]. unfold recognize_step.
  destruct (Qgtb (score e) (max_similarity acc) && Qgtb (score e) thr) eqn:Hup.
  - apply andb_true_iff in Hup as [Hmax Hthr].
    apply Qgtb_true in Hmax, Hthr.
    split; simpl.
    + intros pid [= <-]. exists (length seen), (snd e).
      split; [rewrite lookup_app_r, Nat.sub_diag by lia; by destruct e|].
      do 3 (split; [done|]).
      intros j e' Hj He'. rewrite lookup_app_l in He' by done.
      apply list_elem_of_lookup_2 in He'.
      destruct (Hb _ He') as [H|H]; lra.
    + intros e' [He'| ->%list_elem_of_singleton]%elem_of_app.
      * destruct (Hb _ He') as [H|H]; [left; lra | by right].
      * left. lra.
    + discriminate.
  - apply andb_false_iff in Hup.
    split.
    + intros pid Hpid. destruct (Hc _ Hpid) as (i & d & Hi & Hrest).
      exists i, d. split; [by apply lookup_app_l_Some|].
      destruct Hrest as (? & ? & ? & Hlt). do 3 (split; [done|]).
      intros j e' Hj He'. apply (Hlt j e' Hj).
      apply lookup_lt_Some in Hi.
      by rewrite lookup_app_l in He' by lia.
    + intros e' [He'| ->%list_elem_of_singleton]%elem_of_app; [by apply Hb|].
      destruct Hup as [H|H]; apply Qgtb_false in H; [by left | by right].
    + done.
Qed.

Lemma scanned_loop rest : forall seen acc,
  scanned seen acc ->
  scanned (seen ++ rest) (recognize_loop sim thr query rest acc).
Proof.
  induction rest as [|e rest IH]; intros seen acc H; simpl.
  - by rewrite app_nil_r.
  - rewrite (assoc_L _ seen [e] rest : seen ++ e :: rest = (seen ++ [e]) ++ rest).
    apply IH. by apply scanned_step.
Qed.

Lemma scanned_all d :
  scanned d (recognize_loop sim thr query d (Scan 0%Q None None)).
Proof. apply (scanned_loop d [] _ scanned_start). Qed.

End Matcher.

Lemma recognize_face_unfold sim h query :
  registered_faces h <> [] ->
  recognize_face sim h query =
    let r := recognize_loop sim (similarity_threshold h) query
               (registered_faces h) (Scan 0%Q None None) in
    (recognized_id r, recognized_name r, max_similarity r).
Proof. unfold recognize_face. by destruct (registered_faces h). Qed.

(** C4.  [recognize_face] returns a person id only for a registry entry
    whose similarity to the query strictly exceeds the threshold and is
    strictly greater than the similarity of every entry iterated before it
    (so the first of several equal best entries is the one returned); the
    name and the score returned are that entry's, and no entry of the
    registry scores higher.  On an empty registry the result is
    [(None, None, 0.0)]. *)
Theorem recognize_face_best_match sim h query :
  (registered_faces h = [] -> recognize_face sim h query = (None, None, 0%Q))
  /\ (forall pid nm s,
        recognize_face sim h query = (Some pid, nm, s) ->
        exists i d,
          registered_faces h !! i = Some (pid, d)
          /\ nm = Some (name d)
          /\ s = sim query (face_encoding d)
          /\ (similarity_threshold h < s)%Q
          /\ (forall j e, (j < i)%nat -> registered_faces h !! j = Some e ->
                (sim query (face_encoding (snd e)) < s)%Q)
          /\ (forall e, e ∈ registered_faces h ->
                (sim query (face_encoding (snd e)) <= s)%Q)).
Proof.
  split.
  - intros Hd. unfold recognize_face. by rewrite Hd.
  - intros pid nm s Hres.
    destruct (decide (registered_faces h = [])) as [Hd|Hd].
    { unfold recognize_face in Hres. by rewrite Hd in Hres. }
    rewrite recognize_face_unfold in Hres by done. simpl in Hres.
    injection Hres as Hid Hnm Hs.
    pose proof (scanned_all sim (similarity_threshold h) query
                  (registered_faces h)) as [Hc Hb _].
    destruct (Hc pid Hid) as (i & d & Hi & Hname & Hmax & Hthr & Hlt).
    exists i, d. subst nm s.
    split; [done|]. split; [done|]. split; [done|]. split; [done|].
    split; [done|].
    intros e He. destruct (Hb e He) as [H|H]; lra.
Qed.

Lemma recognize_face_best_match_witness :
  recognize_face Scenario.dot Scenario.office Scenario.carol
  = (Some "E002", Some "Bob", Scenario.dot Scenario.carol Scenario.bob)
  /\ exists i d,
       registered_faces Scenario.office !! i = Some ("E002", d)
       /\ Some "Bob" = Some (name d)
       /\ Scenario.dot Scenario.carol Scenario.bob
          = Scenario.dot Scenario.carol (face_encoding d)
       /\ (similarity_threshold Scenario.office
           < Scenario.dot Scenario.carol Scenario.bob)%Q
       /\ (forall j e, (j < i)%nat ->
             registered_faces Scenario.office !! j = Some e ->
             (Scenario.dot Scenario.carol (face_encoding (snd e))
              < Scenario.dot Scenario.carol Scenario.bob)%Q)
       /\ (forall e, e ∈ registered_faces Scenario.office ->
             (Scenario.dot Scenario.carol (face_encoding (snd e))
              <= Scenario.dot Scenario.carol Scenario.bob)%Q).
Proof.
  assert (recognize_face Scenario.dot Scenario.office Scenario.carol
          = (Some "E002", Some "Bob", Scenario.dot Scenario.carol Scenario.bob))
    as Hres by (vm_compute; reflexivity).
  split; [exact Hres|].
  exact (proj2 (recognize_face_best_match Scenario.dot Scenario.office
                  Scenario.carol) _ _ _ Hres).
Defined.

(** An entry that does not beat the threshold leaves the scan as it is. *)
Lemma recognize_loop_below sim thr query d acc :
  (forall e, e ∈ d -> ~ (thr < sim query (face_encoding (snd e)))%Q) ->
  recognize_loop sim thr query d acc = acc.
Proof.
  unfold recognize_loop. revert acc.
  induction d as [|e d IH]; intros acc Hd; simpl; [done|].
  assert (recognize_step sim thr query acc e = acc) as ->.
  { unfold recognize_step.
    replace (Qgtb (sim query (face_encoding (snd e))) thr) with false.
    - by rewrite andb_false_r.
    - symmetry. apply Qgtb_false, Qnot_lt_le, Hd. by left. }
  apply IH. intros e' He'. apply Hd. by right.
Qed.

(** C10.  On a non-empty registry in which no entry's similarity strictly
    exceeds the threshold, [recognize_face] returns [(None, None, 0.0)]:
    the score is exactly 0.0, whatever the best similarity below the
    threshold was. *)
Theorem recognize_face_no_match sim h query :
  registered_faces h <> [] ->
  (forall e, e ∈ registered_faces h ->
     ~ (similarity_threshold h < sim query (face_encoding (snd e)))%Q) ->
  recognize_face sim h query = (None, None, 0%Q).
Proof.
  intros Hne Hbelow. rewrite recognize_face_unfold by done.
  by rewrite recognize_loop_below.
Qed.

Lemma recognize_face_no_match_witness :
  recognize_face Scenario.dot Scenario.office [(6 # 10)%Q; (-8 # 10)%Q]
  = (None, None, 0%Q).
Proof.
  apply recognize_face_no_match.
  - discriminate.
  - intros e He. unfold Scenario.office in He. simpl in He.
    apply elem_of_cons in He as [->|He];
      [|apply elem_of_cons in He as [->|He]; [|by apply elem_of_nil in He]];
      vm_compute; intros H; discriminate H.
Defined.

(** ** FaceStore: removal *)

Lemma dict_mem_del pid d : dict_mem pid (dict_del pid d) = false.
Proof.
  unfold dict_mem, dict_del. induction d as [|e d IH]; simpl; [done|].
  destruct (String.eqb (fst e) pid) eqn:He; simpl; [done|].
  by rewrite He.
Qed.

Lemma dict_del_absent pid d : dict_mem pid d = false -> dict_del pid d = d.
Proof.
  unfold dict_mem, dict_del. induction d as [|e d IH]; simpl; [done|].
  intros [He Hd]%orb_false_iff. rewrite He. simpl. by rewrite IH.
Qed.

Lemma dict_del_other pid q d :
  q <> pid ->
  List.find (fun e => String.eqb (fst e) q) (dict_del pid d)
  = List.find (fun e => String.eqb (fst e) q) d.
Proof.
  intros Hne. unfold dict_del. induction d as [|e d IH]; simpl; [done|].
  destruct (String.eqb (fst e) pid) eqn:He; simpl.
  - apply String.eqb_eq in He.
    destruct (String.eqb (fst e) q) eqn:Hq; [|done].
    apply String.eqb_eq in Hq. congruence.
  - by rewrite IH.
Qed.

(** The specification's reading of the return value of [remove] fails when
    the pickle file cannot be written: the entry was present and has been
    deleted from the registry in memory, and the value returned is
    [False]. *)
Lemma remove_reports_presence_fails : ~ Spec.remove_reports_presence.
Proof.
  intros H.
  specialize (H (WriteFails Garbage) "E001" Scenario.office).
  vm_compute in H. discriminate H.
Qed.

(** C9 (as the code has it).  [remove_face_encoding] deletes the entry
    from the registry in memory if it is there, leaving the other entries
    alone, and then writes the registry to the file.  It returns [True]
    exactly when the id was registered and that write succeeded, in which
    case the file holds the new registry.  For an id that is not registered
    it returns [False] and touches neither the registry nor the file. *)
Theorem remove_face_encoding_spec io pid h :
  let r := remove_face_encoding io pid h in
  (fst r = true <-> dict_mem pid (registered_faces h) = true /\ io = WriteOk)
  /\ dict_mem pid (registered_faces (snd r)) = false
  /\ (forall q, q <> pid ->
        List.find (fun e => String.eqb (fst e) q) (registered_faces (snd r))
        = List.find (fun e => String.eqb (fst e) q) (registered_faces h))
  /\ (fst r = true -> face_db (snd r) = Pickled (registered_faces (snd r)))
  /\ (dict_mem pid (registered_faces h) = false -> snd r = h).
Proof.
  unfold remove_face_encoding.
  destruct (dict_mem pid (registered_faces h)) eqn:Hmem.
  - destruct io as [|residue]; simpl.
    + repeat split; try done; auto using dict_mem_del, dict_del_other.
    + repeat split; try done; auto using dict_mem_del, dict_del_other.
      * by intros [_ ?].
  - simpl. repeat split; try done.
    + by intros [? _].
Qed.

Lemma remove_face_encoding_spec_witness :
  fst (remove_face_encoding WriteOk "E001" Scenario.office) = true
  /\ face_db (snd (remove_face_encoding WriteOk "E001" Scenario.office))
     = Pickled [("E002", FaceData "Bob" Scenario.bob)].
Proof.
  pose proof (remove_face_encoding_spec WriteOk "E001" Scenario.office)
    as (Hret & _ & _ & Hfile & _).
  assert (fst (remove_face_encoding WriteOk "E001" Scenario.office) = true)
    as Htrue by (apply Hret; split; reflexivity).
  split; [exact Htrue|].
  rewrite (Hfile Htrue). reflexivity.
Defined.

End FaceStoreFacts.

(** ** Database: the daily attendance sync *)
Module DatabaseFacts.
Import Database.

Example shift_end_hour_18 : user_shift_end_hour (Some "18:00") = 18.
Proof. reflexivity. Qed.

Example shift_end_hour_short : user_shift_end_hour (Some "6:30") = 6.
Proof. reflexivity. Qed.

Example shift_end_hour_fallback :
  user_shift_end_hour (Some "six pm") = 18 /\ user_shift_end_hour None = 18.
Proof. split; reflexivity. Qed.

Lemma digit_bounds a x :
  digit_of a = Some x ->
  48 <= Z.of_nat (nat_of_ascii a) <= 57 /\ x = Z.of_nat (nat_of_ascii a) - 48.
Proof.
  unfold digit_of. intros H.
  destruct (_ && _) eqn:Hrange; [|done].
  injection H as <-. apply andb_true_iff in Hrange as [?%Z.leb_le ?%Z.leb_le].
  lia.
Qed.

Lemma digit_not_space a x : digit_of a = Some x -> is_space a = false.
Proof.
  intros [Hr _]%digit_bounds. unfold is_space.
  apply orb_false_iff. split; apply andb_false_iff.
  - right. apply Z.leb_gt. lia.
  - right. apply Z.leb_gt. lia.
Qed.

Lemma digit_not_colon a x : digit_of a = Some x -> Ascii.eqb a ":"%char = false.
Proof.
  intros Hd. destruct (Ascii.eqb_spec a ":"%char) as [->|]; [|done].
  vm_compute in Hd. discriminate.
Qed.

(** A string that starts with a digit carries no sign. *)
Lemma py_int_unsigned a rest x s :
  digit_of a = Some x ->
  lstrip (rstrip s) = String a rest ->
  py_int s = parse_digits 0 false (String a rest).
Proof.
  intros Hd Hs. unfold py_int. rewrite Hs.
  destruct a as [[] [] [] [] [] [] [] []];
    try reflexivity; vm_compute in Hd; discriminate.
Qed.

Lemma before_colon_two_digits a b rest x y :
  digit_of a = Some x ->
  digit_of b = Some y ->
  before_colon (String a (String b (String ":"%char rest)))
  = String a (String b EmptyString).
Proof.
  intros Ha Hb. simpl.
  by rewrite (digit_not_colon a x), (digit_not_colon b y).
Qed.

(** [int("ab")] for two digits. *)
Lemma py_int_two_digits a b x y :
  digit_of a = Some x ->
  digit_of b = Some y ->
  py_int (String a (String b EmptyString)) = Some (10 * x + y).
Proof.
  intros Ha Hb.
  rewrite (py_int_unsigned a (String b EmptyString) x).
  - simpl. rewrite Ha. simpl. rewrite Hb. simpl. f_equal; lia.
  - done.
  - simpl. rewrite (digit_not_space b y) by done. simpl.
    by rewrite (digit_not_space a x).
Qed.

Lemma is_record_true pid date r :
  is_record pid date r = true <-> a_person_id r = pid /\ a_date r = date.
Proof.
  unfold is_record. by rewrite andb_true_iff, !String.eqb_eq.
Qed.

Lemma select_attendance_none pid date d :
  (forall r, r ∈ attendance d -> ~ (a_person_id r = pid /\ a_date r = date)) ->
  select_attendance pid date d = None.
Proof.
  intros H. unfold select_attendance.
  destruct (List.find _ _) as [r|] eqn:Hfind; [|done].
  apply find_some in Hfind as [Hin Hrec].
  apply list_elem_of_In in Hin. apply is_record_true in Hrec.
  by destruct (H r Hin).
Qed.

Lemma select_attendance_some pid date d :
  (exists r, r ∈ attendance d /\ a_person_id r = pid /\ a_date r = date) ->
  exists r, select_attendance pid date d = Some r.
Proof.
  intros (r & Hin & Hrec). unfold select_attendance.
  destruct (List.find _ _) as [r'|] eqn:Hfind; [by exists r'|].
  apply list_elem_of_In in Hin.
  pose proof (find_none _ _ Hfind r Hin) as Hno.
  apply is_record_true in Hrec. congruence.
Qed.

Lemma filter_none pid date (rows : list attendance_row) :
  (forall r, r ∈ rows -> ~ (a_person_id r = pid /\ a_date r = date)) ->
  List.filter (is_record pid date) rows = [].
Proof.
  induction rows as [|r rows IH]; intros H; simpl; [done|].
  destruct (is_record pid date r) eqn:Hr.
  - apply is_record_true in Hr. destruct (H r); [by left | done].
  - apply IH. intros r' Hr'. apply H. by right.
Qed.

(** Without faults, the three branches of the sync. *)
Lemma sync_no_fault c f pid d :
  (forall s, f s = None) ->
  sync_daily_attendance c f pid d =
    match select_person pid d with
    | None => (Returned "Error: Person not found", d)
    | Some person_data =>
        match select_attendance pid (today c) d with
        | None =>
            (Returned ("LOGIN: " +:+ current_time c),
             insert_attendance pid (today c) (current_time c) d)
        | Some _ =>
            (Returned
               (if user_shift_end_hour (shift_end person_data) <=? hour c
                then "LOGOUT UPDATE: " +:+ current_time c
                else "Shift Ongoing (Ends " +:+ fmt (shift_end person_data) +:+ ")"),
             update_leaving pid (today c) (current_time c) d)
        end
    end.
Proof.
  intros Hf. unfold sync_daily_attendance, unguarded, guarded.
  rewrite !Hf. destruct (select_person pid d); [|done].
  rewrite ?Hf. destruct (select_attendance pid (today c) d); by rewrite ?Hf.
Qed.

(** C2.  For a person (a row of [persons]) without an attendance row for
    today, a sync that meets no database fault inserts one row for
    [(person_id, today)] whose arrival and leaving times are both the
    current time and whose status is 'Present' -- afterwards it is the only
    row of that person and date, and the rows that were there are
    unchanged -- and returns the message "LOGIN: <current time>". *)
Theorem first_sync_logs_in c f pid d p :
  (forall s, f s = None) ->
  select_person pid d = Some p ->
  (forall r, r ∈ attendance d -> ~ (a_person_id r = pid /\ a_date r = today c)) ->
  let row := {| a_id := next_attendance_id d; a_person_id := pid;
                a_date := today c;
                arrival_time := Some (current_time c);
                leaving_time := Some (current_time c);
                status := Some "Present" |} in
  let r := sync_daily_attendance c f pid d in
  fst r = Returned ("LOGIN: " +:+ current_time c)
  /\ str_in "LOGIN" ("LOGIN: " +:+ current_time c) = true
  /\ attendance (snd r) = attendance d ++ [row]
  /\ List.filter (is_record pid (today c)) (attendance (snd r)) = [row]
  /\ persons (snd r) = persons d.
Proof.
  intros Hf Hp Hnone row r. subst r.
  rewrite sync_no_fault, Hp, select_attendance_none by done. simpl.
  repeat split.
  rewrite List.filter_app, filter_none by done. simpl.
  unfold is_record. simpl. by rewrite !String.eqb_refl.
Qed.

Lemma first_sync_logs_in_witness :
  fst (sync_daily_attendance Scenario.at_17_00 no_fault "E001" Scenario.staff)
  = Returned "LOGIN: 17:00:00"
  /\ attendance
       (snd (sync_daily_attendance Scenario.at_17_00 no_fault "E001"
               Scenario.staff))
     = [AttendanceRow 1 "E001" "2024-03-01" (Some "17:00:00")
          (Some "17:00:00") (Some "Present")].
Proof.
  pose proof (first_sync_logs_in Scenario.at_17_00 no_fault "E001"
                Scenario.staff
                (PersonRow "E001" "Alice" (Some "09:00") (Some "18:00"))
                (fun _ => eq_refl) eq_refl) as H.
  simpl in H.
  destruct H as (Hret & _ & Hrows & _).
  - intros r Hr. by apply elem_of_nil in Hr.
  - split; [exact Hret | exact Hrows].
Defined.

Lemma update_leaving_lookup pid date time d i r :
  attendance d !! i = Some r ->
  attendance (update_leaving pid date time d) !! i
  = Some (if is_record pid date r then set_leaving time r else r).
Proof.
  intros Hi. unfold update_leaving. simpl.
  change (List.map ?f ?l) with (f <$> l).
  by rewrite list_lookup_fmap, Hi.
Qed.



(** Every fault met after the cursor was obtained is turned into a
    message. *)
Lemma sync_returns_once_connected c f pid d :
  f Connect = None -> f Cursor = None ->
  exists msg, fst (sync_daily_attendance c f pid d) = Returned msg.
Proof.
  intros Hc Hk. unfold sync_daily_attendance, unguarded, guarded.
  rewrite Hc, Hk.
  repeat (match goal with
          | |- context [match ?x with _ => _ end] => destruct x
          end; simpl; eauto).
Qed.

(** A fault of [get_connection] or of [conn.cursor()] leaves the sync as an
    exception. *)
Lemma sync_raises_unconnected c f pid d err :
  f Connect = Some err \/ (f Connect = None /\ f Cursor = Some err) ->
  sync_daily_attendance c f pid d = (Raised err, d).
Proof.
  unfold sync_daily_attendance, unguarded.
  intros [Hc|[Hc Hk]]; by rewrite ?Hc, ?Hk.
Qed.

End DatabaseFacts.

(** ** Attendance: the cooldowns *)
Module AttendanceFacts.
Import Database Attendance.

Lemma log_raw_detection_attendance c f pid nm d :
  attendance (snd (log_raw_detection c f pid nm d)) = attendance d.
Proof.
  unfold log_raw_detection, unguarded, guarded.
  repeat (match goal with
          | |- context [match ?x with _ => _ end] => destruct x
          end; simpl; try done).
Qed.

Lemma sync_raised_keeps c f pid d err d' :
  sync_daily_attendance c f pid d = (Raised err, d') -> d' = d.
Proof.
  unfold sync_daily_attendance, unguarded, guarded.
  repeat (match goal with
          | |- context [match ?x with _ => _ end] => destruct x
          end; simpl; try congruence).
Qed.

Lemma syncs_voice_feedback q nm msg : syncs q (voice_feedback nm msg) = false.
Proof. unfold voice_feedback. by repeat case_match. Qed.

Lemma alerts_voice_feedback nm msg : alerts (voice_feedback nm msg) = false.
Proof. unfold voice_feedback. by repeat case_match. Qed.

Lemma syncs_app q ev1 ev2 : syncs q (ev1 ++ ev2) = syncs q ev1 || syncs q ev2.
Proof. apply existsb_app. Qed.

Lemma alerts_app ev1 ev2 : alerts (ev1 ++ ev2) = alerts ev1 || alerts ev2.
Proof. apply existsb_app. Qed.

(** PART 1 touches neither the attendance timer, nor the alert timer, nor
    the attendance table. *)
Lemma raw_logging_frame r pid nm t res t' ev :
  raw_logging r pid nm t = (res, t', ev) ->
  last_attendance_time t' = last_attendance_time t
  /\ last_unknown_alert_time t' = last_unknown_alert_time t
  /\ attendance (db_manager t') = attendance (db_manager t)
  /\ (forall q, syncs q ev = false) /\ alerts ev = false.
Proof.
  unfold raw_logging. intros H.
  destruct (due _ _ _ _); [|by injection H as <- <- <-].
  pose proof (log_raw_detection_attendance (log_clock r) (log_faults r) pid nm
                (db_manager t)) as Hatt.
  destruct (log_raw_detection _ _ _ _ _) as [[u|err] d];
    injection H as <- <- <-; simpl in *; done.
Qed.

(** PART 2: a sync happens only when the timer allows it, and restarts the
    timer; without a sync the timer and the attendance table stay. *)
Lemma attendance_logic_sync r pid nm t res t' ev q :
  attendance_logic r pid nm t = (res, t', ev) ->
  last_unknown_alert_time t' = last_unknown_alert_time t
  /\ alerts ev = false
  /\ (syncs q ev = true ->
        last_attendance_time t' !! q = Some (current_ts r)
        /\ forall l, last_attendance_time t !! q = Some l ->
             (5 < current_ts r - l)%Q)
  /\ (syncs q ev = false ->
        last_attendance_time t' !! q = last_attendance_time t !! q)
  /\ (syncs pid ev = false ->
        attendance (db_manager t') = attendance (db_manager t)).
Proof.
  unfold attendance_logic. intros H.
  destruct (due _ _ _ _) eqn:Hdue; [|by injection H as <- <- <-].
  destruct (sync_daily_attendance _ _ _ _) as [[msg|err] d] eqn:Hsync;
    injection H as <- <- <-; simpl.
  - rewrite alerts_voice_feedback, syncs_voice_feedback, orb_false_r.
    split; [done|]. split; [done|]. split; [|split].
    + intros ->%String.eqb_eq. split; [by rewrite lookup_insert_eq|].
      intros l Hl. unfold due in Hdue. rewrite Hl in Hdue.
      by apply Qgtb_true in Hdue.
    + intros Hne%String.eqb_neq. by rewrite lookup_insert_ne.
    + by rewrite String.eqb_refl.
  - apply sync_raised_keeps in Hsync as ->.
    split; [done|]. split; [done|]. split; [done|]. by split.
Qed.

Lemma process_recognized_face_sync r pid nm t res t' ev q :
  process_recognized_face r pid nm t = (res, t', ev) ->
  last_unknown_alert_time t' = last_unknown_alert_time t
  /\ alerts ev = false
  /\ (syncs q ev = true ->
        last_attendance_time t' !! q = Some (current_ts r)
        /\ forall l, last_attendance_time t !! q = Some l ->
             (5 < current_ts r - l)%Q)
  /\ (syncs q ev = false ->
        last_attendance_time t' !! q = last_attendance_time t !! q)
  /\ (syncs pid ev = false ->
        attendance (db_manager t') = attendance (db_manager t)).
Proof.
  unfold process_recognized_face. intros H.
  destruct (raw_logging r pid nm t) as [[res1 t1] ev1] eqn:Hraw.
  apply raw_logging_frame in Hraw as (Hatt1 & Hal1 & Hdb1 & Hs1 & Ha1).
  destruct res1 as [u|err].
  - destruct (attendance_logic r pid nm t1) as [[res2 t2] ev2] eqn:Hlogic.
    injection H as <- <- <-.
    apply (attendance_logic_sync _ _ _ _ _ _ _ q) in Hlogic
      as (Hal2 & Ha2 & Hyes & Hno & Hdb2).
    rewrite alerts_app, Ha1, Ha2, syncs_app, Hs1, <- Hatt1, <- Hal1, <- Hdb1.
    simpl. split; [done|]. split; [done|]. split; [done|]. split; [done|].
    intros Hnone. apply Hdb2. by rewrite syncs_app, Hs1 in Hnone.
  - injection H as <- <- <-. rewrite Hs1.
    split; [done|]. split; [done|]. split; [done|]. split; [|done].
    intros _. by rewrite Hatt1.
Qed.

(** [process_unknown_person]: an alert is started only when the timer
    allows it, and restarts the timer. *)
Lemma process_unknown_person_alert r path enc t res t' ev :
  process_unknown_person r path enc t = (res, t', ev) ->
  last_attendance_time t' = last_attendance_time t
  /\ (forall q, syncs q ev = false)
  /\ (alerts ev = true ->
        last_unknown_alert_time t' = unknown_ts r
        /\ (15 < unknown_ts r - last_unknown_alert_time t)%Q)
  /\ (alerts ev = false ->
        last_unknown_alert_time t' = last_unknown_alert_time t).
Proof.
  unfold process_unknown_person. intros H.
  destruct (log_unknown_person _ _ _ _) as [[ok|err] d];
    [|by injection H as <- <- <-].
  simpl in H.
  destruct (Qgtb _ _) eqn:Hdue; injection H as <- <- <-; simpl;
    repeat split; try done.
  by apply Qgtb_true in Hdue.
Qed.

(** *** A timer and the calls it lets through *)
Section Cooldown.

(** The timer read from the tracker, the calls that act, and the gap. *)
Variable last : tracker -> option Q.
Variable fires : list event -> bool.
Variable gap : Q.

Hypothesis gap_nonneg : (0 <= gap)%Q.

Hypothesis fires_restarts : forall c t,
  fires (snd (invoke c t)) = true ->
  last (fst (invoke c t)) = Some (call_ts c)
  /\ forall l, last t = Some l -> (gap < call_ts c - l)%Q.

Hypothesis idle_keeps : forall c t,
  fires (snd (invoke c t)) = false -> last (fst (invoke c t)) = last t.

Lemma timer_grows c t l :
  last t = Some l ->
  exists l', last (fst (invoke c t)) = Some l' /\ (l <= l')%Q.
Proof.
  intros Hl. destruct (fires (snd (invoke c t))) eqn:Hf.
  - destruct (fires_restarts c t Hf) as [Hset Hgap].
    exists (call_ts c). split; [done|]. specialize (Hgap l Hl). lra.
  - exists l. rewrite idle_keeps by done. split; [done | lra].
Qed.

Lemma invocations_cons c cs t :
  invocations (c :: cs) t =
    (snd (invoke c t) :: fst (invocations cs (fst (invoke c t))),
     snd (invocations cs (fst (invoke c t)))).
Proof.
  simpl. destruct (invoke c t) as [t1 ev]. simpl.
  by destruct (invocations cs t1).
Qed.

(** Every call that acts does so more than [gap] after the timer value
    the sequence started with. *)
Lemma fires_after_start cs : forall t l j cj ej,
  last t = Some l ->
  cs !! j = Some cj ->
  fst (invocations cs t) !! j = Some ej ->
  fires ej = true ->
  (gap < call_ts cj - l)%Q.
Proof.
  induction cs as [|c cs IH]; intros t l j cj ej Hl Hc He Hf; [done|].
  rewrite invocations_cons in He. simpl in He.
  destruct j as [|j]; simpl in Hc, He.
  - injection Hc as ->. injection He as <-.
    by apply (fires_restarts cj t Hf).
  - destruct (timer_grows c t l Hl) as (l' & Hl' & Hle).
    pose proof (IH _ _ _ _ _ Hl' Hc He Hf). lra.
Qed.

(** Two calls that act are more than [gap] apart. *)
Lemma fires_apart cs : forall t i j ci cj ei ej,
  (i < j)%nat ->
  cs !! i = Some ci -> cs !! j = Some cj ->
  fst (invocations cs t) !! i = Some ei ->
  fst (invocations cs t) !! j = Some ej ->
  fires ei = true -> fires ej = true ->
  (gap < call_ts cj - call_ts ci)%Q.
Proof.
  induction cs as [|c cs IH]; intros t i j ci cj ei ej Hij Hci Hcj Hei Hej Hfi Hfj;
    [done|].
  rewrite invocations_cons in Hei, Hej. simpl in Hei, Hej.
  destruct j as [|j]; [lia|]. simpl in Hcj, Hej.
  destruct i as [|i]; simpl in Hci, Hei.
  - injection Hci as ->. injection Hei as <-.
    destruct (fires_restarts ci t Hfi) as [Hset _].
    by apply (fires_after_start cs _ _ j cj ej Hset).
  - apply (IH (fst (invoke c t)) i j ci cj ei ej); try done. lia.
Qed.

End Cooldown.

Lemma invoke_sync_restarts pid c t :
  syncs pid (snd (invoke c t)) = true ->
  last_attendance_time (fst (invoke c t)) !! pid = Some (call_ts c)
  /\ forall l, last_attendance_time t !! pid = Some l -> (5 < call_ts c - l)%Q.
Proof.
  destruct c as [c|c]; simpl.
  - destruct (process_recognized_face _ _ _ _) as [[res t'] ev] eqn:H. simpl.
    apply (process_recognized_face_sync _ _ _ _ _ _ _ pid) in H. tauto.
  - destruct (process_unknown_person _ _ _ _) as [[res t'] ev] eqn:H. simpl.
    apply process_unknown_person_alert in H as (_ & Hs & _). by rewrite Hs.
Qed.

Lemma invoke_idle_keeps pid c t :
  syncs pid (snd (invoke c t)) = false ->
  last_attendance_time (fst (invoke c t)) !! pid = last_attendance_time t !! pid.
Proof.
  destruct c as [c|c]; simpl.
  - destruct (process_recognized_face _ _ _ _) as [[res t'] ev] eqn:H. simpl.
    apply (process_recognized_face_sync _ _ _ _ _ _ _ pid) in H. tauto.
  - destruct (process_unknown_person _ _ _ _) as [[res t'] ev] eqn:H. simpl.
    apply process_unknown_person_alert in H as (-> & _). done.
Qed.

Lemma invoke_alert_restarts c t :
  alerts (snd (invoke c t)) = true ->
  Some (last_unknown_alert_time (fst (invoke c t))) = Some (call_ts c)
  /\ forall l, Some (last_unknown_alert_time t) = Some l ->
       (15 < call_ts c - l)%Q.
Proof.
  destruct c as [c|c]; simpl.
  - destruct (process_recognized_face _ _ _ _) as [[res t'] ev] eqn:H. simpl.
    apply (process_recognized_face_sync _ _ _ _ _ _ _ "") in H
      as (_ & Ha & _). by rewrite Ha.
  - destruct (process_unknown_person _ _ _ _) as [[res t'] ev] eqn:H. simpl.
    apply process_unknown_person_alert in H as (_ & _ & Hyes & _).
    intros Ha. destruct (Hyes Ha) as [-> Hgap]. split; [done|].
    by intros l [= <-].
Qed.

Lemma invoke_quiet_keeps c t :
  alerts (snd (invoke c t)) = false ->
  Some (last_unknown_alert_time (fst (invoke c t)))
  = Some (last_unknown_alert_time t).
Proof.
  destruct c as [c|c]; simpl.
  - destruct (process_recognized_face _ _ _ _) as [[res t'] ev] eqn:H. simpl.
    apply (process_recognized_face_sync _ _ _ _ _ _ _ "") in H as (-> & _).
    done.
  - destruct (process_unknown_person _ _ _ _) as [[res t'] ev] eqn:H. simpl.
    apply process_unknown_person_alert in H as (_ & _ & _ & Hno).
    intros Ha. by rewrite Hno.
Qed.

(** A call of [process_recognized_face] that makes no sync leaves the
    attendance table as it is. *)
Lemma no_sync_no_write r pid nm t :
  let '(_, t', ev) := process_recognized_face r pid nm t in
  syncs pid ev = false ->
  attendance (db_manager t') = attendance (db_manager t).
Proof.
  destruct (process_recognized_face r pid nm t) as [[res t'] ev] eqn:H.
  apply (process_recognized_face_sync _ _ _ _ _ _ _ pid) in H. tauto.
Qed.

(** The claim as the specification words it fails: after a sync at 1000 s,
    the call at 1003 s is held back by the cooldown and the call at 1006 s
    is not, although it comes within 5 seconds of the call before it. *)
Lemma second_call_never_syncs_fails : ~ Spec.second_call_never_syncs.
Proof.
  intros H.
  epose proof (H Scenario.three_sightings Scenario.staff "E001" 1%nat 2%nat
                 _ _ _ ltac:(lia) eq_refl eq_refl eq_refl eq_refl _ eq_refl)
    as Hc.
  vm_compute in Hc. discriminate Hc.
  Unshelve. split; vm_compute; discriminate.
Qed.

(** C5 (as the code has it).  The cooldown runs from the last sync of the
    person, not from the last invocation: in any sequence of calls on a
    tracker, if a call makes an attendance sync for a person, a later call
    whose clock reading is at most 5 seconds after that one makes none for
    that person (and so writes nothing to the attendance table, see
    [no_sync_no_write]).  Of two invocations within 5 seconds at most one
    syncs; two syncs of a person are always more than 5 seconds apart. *)
Theorem sync_cooldown cs t pid i j ci cj ei ej :
  (i < j)%nat ->
  cs !! i = Some ci -> cs !! j = Some cj ->
  fst (invocations cs t) !! i = Some ei ->
  fst (invocations cs t) !! j = Some ej ->
  (call_ts cj - call_ts ci <= 5)%Q ->
  syncs pid ei = true ->
  syncs pid ej = false.
Proof.
  intros Hij Hci Hcj Hei Hej Hclose Hfi.
  destruct (syncs pid ej) eqn:Hfj; [|done].
  pose proof (fires_apart (fun t => last_attendance_time t !! pid) (syncs pid) 5
                ltac:(lra) (invoke_sync_restarts pid) (invoke_idle_keeps pid)
                cs t i j ci cj ei ej Hij Hci Hcj Hei Hej Hfi Hfj).
  lra.
Qed.

Lemma sync_cooldown_witness :
  fst (invocations Scenario.three_sightings (init Scenario.staff)) !! 0%nat
  = Some [RawLogged "E001" 1000; Synced "E001" 1000 "LOGIN: 17:00:00";
          Spoke "Welcome, Alice. Login Successful."]
  /\ fst (invocations Scenario.three_sightings (init Scenario.staff)) !! 1%nat
     = Some []
  /\ syncs "E001" [] = false.
Proof.
  assert (fst (invocations Scenario.three_sightings (init Scenario.staff))
            !! 0%nat
          = Some [RawLogged "E001" 1000; Synced "E001" 1000 "LOGIN: 17:00:00";
                  Spoke "Welcome, Alice. Login Successful."])
    as H0 by (vm_compute; reflexivity).
  assert (fst (invocations Scenario.three_sightings (init Scenario.staff))
            !! 1%nat = Some [])
    as H1 by (vm_compute; reflexivity).
  split; [exact H0|]. split; [exact H1|].
  apply (sync_cooldown Scenario.three_sightings (init Scenario.staff) "E001"
           0%nat 1%nat (Scenario.seen_at 1000) (Scenario.seen_at 1003)
           _ [] ltac:(lia) eq_refl eq_refl H0 H1).
  - vm_compute. discriminate.
  - vm_compute. reflexivity.
Defined.

(** C7.  The unknown-person alert is started at most once per 15 seconds,
    whoever the unknown persons are: in any sequence of calls on a tracker
    -- [process_unknown_person] for any snapshots and embeddings, mixed with
    [process_recognized_face] -- two calls that start the alert have clock
    readings more than 15 seconds apart.  The timer is the single
    [last_unknown_alert_time] of the tracker. *)
Theorem unknown_alert_cooldown cs t i j ci cj ei ej :
  (i < j)%nat ->
  cs !! i = Some ci -> cs !! j = Some cj ->
  fst (invocations cs t) !! i = Some ei ->
  fst (invocations cs t) !! j = Some ej ->
  alerts ei = true -> alerts ej = true ->
  (15 < call_ts cj - call_ts ci)%Q.
Proof.
  apply (fires_apart (fun t => Some (last_unknown_alert_time t)) alerts 15
           ltac:(lra) invoke_alert_restarts invoke_quiet_keeps).
Qed.

Lemma unknown_alert_cooldown_witness :
  let evs :=
    fst (invocations
           [Scenario.stranger_at 1000; Scenario.stranger_at 1010;
            Scenario.stranger_at 1020] (init Scenario.staff)) in
  evs !! 0%nat
  = Some [UnknownLogged "data/unknown_faces/unknown_1.jpg" true; Alerted 1000]
  /\ evs !! 1%nat
     = Some [UnknownLogged "data/unknown_faces/unknown_1.jpg" true]
  /\ evs !! 2%nat
     = Some [UnknownLogged "data/unknown_faces/unknown_1.jpg" true; Alerted 1020]
  /\ (15 < call_ts (Scenario.stranger_at 1020)
           - call_ts (Scenario.stranger_at 1000))%Q.
Proof.
  split; [vm_compute; reflexivity|].
  split; [vm_compute; reflexivity|].
  split; [vm_compute; reflexivity|].
  apply (unknown_alert_cooldown
           [Scenario.stranger_at 1000; Scenario.stranger_at 1010;
            Scenario.stranger_at 1020]
           (init Scenario.staff) 0%nat 2%nat
           (Scenario.stranger_at 1000) (Scenario.stranger_at 1020)
           [UnknownLogged "data/unknown_faces/unknown_1.jpg" true; Alerted 1000]
           [UnknownLogged "data/unknown_faces/unknown_1.jpg" true; Alerted 1020]).
  - lia.
  - reflexivity.
  - reflexivity.
  - vm_compute. reflexivity.
  - vm_compute. reflexivity.
  - reflexivity.
  - reflexivity.
Defined.

End AttendanceFacts.

(** ** Video: bindings and snapshots *)
Module VideoFacts.
Import Video Invariant.

Lemma snapshots_of_app tid a b :
  snapshots_of tid (a ++ b) = (snapshots_of tid a + snapshots_of tid b)%nat.
Proof. unfold snapshots_of. by rewrite List.filter_app, length_app. Qed.

Lemma advances_refl tid p exn : advances tid p exn p [].
Proof. repeat split; auto. Qed.

Lemma advances_trans tid p p1 p2 exn new1 new2 :
  advances tid p None p1 new1 ->
  advances tid p1 exn p2 new2 ->
  advances tid p exn p2 (new1 ++ new2).
Proof.
  intros (Hb1 & Hl1 & Hz1 & Hc1) (Hb2 & Hl2 & Hz2 & Hc2).
  unfold advances. rewrite snapshots_of_app.
  split; [auto|]. split; [by etrans|]. split.
  - intros Hin. rewrite Hz1, Hz2; [done | by apply Hl1 | done].
  - destruct Hc1 as [H1|[H1 Hin]].
    + rewrite H1. destruct Hc2 as [H2|[H2 Hin]]; [by left | right].
      split; [by rewrite H2 | done].
    + right. rewrite H1, Hz2 by auto. split; [done|].
      intros _. apply Hl2. by apply Hin.
Qed.

Section Frames.

Context {W : Type}.
Variable sim : encoding -> encoding -> Q.
Variable mark :
  option (string -> string -> W -> result (bool * option string) * W).
Variable unknown : option (string -> encoding -> W -> result unit * W).

Lemma update_attendance_frame keep pid nm (s : loop_state) :
  proc (snd (update_attendance mark keep pid nm s)) = proc s
  /\ snapshots (snd (update_attendance mark keep pid nm s)) = snapshots s.
Proof.
  unfold update_attendance. by repeat case_match.
Qed.

Lemma log_unknown_advances tid inp i t best (s : loop_state) :
  let r := log_unknown unknown inp i t best s in
  exists new, snapshots (snd r) = snapshots s ++ new
    /\ advances tid (proc s) (fst r) (proc (snd r)) new.
Proof.
  unfold log_unknown.
  destruct unknown as [callback|];
    [|exists []; rewrite app_nil_r; split; [done | apply advances_refl]].
  destruct (decide (tracker_id t ∈ logged_unknown_ids (proc s))) as [Hin|Hout];
    [exists []; rewrite app_nil_r; split; [done | apply advances_refl]|].
  destruct (0 <? face_crop_size _ _);
    [|exists []; rewrite app_nil_r; split; [done | apply advances_refl]].
  destruct (callback _ _ _) as [[u|err] w]; simpl;
    (eexists; split; [reflexivity|]);
    unfold advances, snapshots_of; simpl;
    (split; [done|]); (split; [set_solver|]).
  - split.
    + intros Hin. destruct (Z.eqb_spec (tracker_id t) tid); [congruence | done].
    + destruct (Z.eqb_spec (tracker_id t) tid); [right | by left].
      split; [done|]. intros _. set_solver.
  - split.
    + intros Hin. destruct (Z.eqb_spec (tracker_id t) tid); [congruence | done].
    + destruct (Z.eqb_spec (tracker_id t) tid); [right | by left].
      split; [done|]. discriminate.
Qed.

Lemma bind_track_advances tid (s : @loop_state W) k pid nm exn :
  tracker_id_to_person (proc s) !! k = None ->
  advances tid (proc s) exn (proc (bind_track k pid nm s)) [].
Proof.
  intros Hfree. split; [|repeat split; auto].
  intros k' v Hk'. simpl. rewrite lookup_insert_ne; [done | congruence].
Qed.

Lemma handle_track_advances tid inp i t (s : loop_state) :
  let r := handle_track sim mark unknown inp i t s in
  exists new, snapshots (snd r) = snapshots s ++ new
    /\ advances tid (proc s) (fst r) (proc (snd r)) new.
Proof.
  unfold handle_track.
  destruct (tracker_id_to_person (proc s) !! tracker_id t)
    as [[person_id person_name]|] eqn:Hbound.
  - pose proof (update_attendance_frame (fun m => negb (str_in "Tracking" m))
                  person_id person_name s) as [Hp Hs].
    destruct (update_attendance _ _ _ _ _) as [[err|] s1]; simpl in *;
      exists []; rewrite app_nil_r, Hp; (split; [done | apply advances_refl]).
  - destruct (find_best_face _ _) as [best_face|];
      [|exists []; rewrite app_nil_r; split; [done | apply advances_refl]].
    destruct (FaceStore.recognize_face _ _ _) as [[person_id person_name] score].
    assert (Hunknown :
      let r := match log_unknown unknown inp i t best_face s with
               | (Some err, s1) => (Some err, s1)
               | (None, s1) =>
                   (None, add_label ("Unknown #" +:+ pretty (tracker_id t)) s1)
               end in
      exists new, snapshots (snd r) = snapshots s ++ new
        /\ advances tid (proc s) (fst r) (proc (snd r)) new).
    { destruct (log_unknown_advances tid inp i t best_face s) as (new & Hs & Ha).
      destruct (log_unknown _ _ _ _ _ _) as [[err|] s1]; by exists new. }
    destruct person_id as [pid|]; [|exact Hunknown].
    destruct (truthy pid); [|exact Hunknown].
    set (nm := default "None" person_name).
    pose proof (update_attendance_frame (fun _ => true) pid nm
                  (bind_track (tracker_id t) pid nm s)) as [Hp Hs].
    destruct (update_attendance _ _ _ _ _) as [[err|] s2]; simpl in Hp, Hs |- *;
      exists []; rewrite app_nil_r, Hp; (split; [done|]);
      by apply bind_track_advances.
Qed.

Lemma for_each_track_advances tid inp ts : forall i (s : loop_state),
  let r := for_each_track sim mark unknown inp i ts s in
  exists new, snapshots (snd r) = snapshots s ++ new
    /\ advances tid (proc s) (fst r) (proc (snd r)) new.
Proof.
  induction ts as [|t ts IH]; intros i s; simpl.
  - exists []. rewrite app_nil_r. split; [done | apply advances_refl].
  - destruct (handle_track_advances tid inp i t s) as (new1 & Hs1 & Ha1).
    destruct (handle_track _ _ _ _ _ _ _) as [[err|] s1];
      simpl in Hs1, Ha1 |- *.
    + by exists new1.
    + destruct (IH (S i) s1) as (new2 & Hs2 & Ha2).
      exists (new1 ++ new2). split.
      * by rewrite Hs2, Hs1, <- app_assoc.
      * by apply (advances_trans tid _ (proc s1)).
Qed.

Lemma process_frame_advances tid inp p w :
  let r := process_frame sim mark unknown inp p w in
  advances tid p
    (match outcome r with Raised err => Some err | Returned _ => None end)
    (proc_after r) (snapshots_taken r).
Proof.
  unfold process_frame.
  destruct (for_each_track_advances tid inp (tracked_detections inp) 0%nat
              {| proc := p; world := w; labels := []; messages := [];
                 snapshots := [] |}) as (new & Hs & Ha).
  destruct (for_each_track _ _ _ _ _ _ _) as [exn s]. simpl in *.
  rewrite Hs. by destruct exn.
Qed.

Lemma frame_loop_advances tid frames : forall p w,
  let r := frame_loop sim mark unknown frames p w in
  advances tid p (exception r) (final_proc r) (taken r).
Proof.
  induction frames as [|inp frames IH]; intros p w; simpl.
  - apply advances_refl.
  - pose proof (process_frame_advances tid inp p w) as Hframe. simpl in Hframe.
    destruct (outcome (process_frame sim mark unknown inp p w)) as [out|err];
      simpl; [|done].
    eapply advances_trans; [exact Hframe | apply IH].
Qed.

(** C1.  A track bound to a person in the identity cache keeps that binding
    through every frame the capture loop processes, whatever the detector,
    the tracker, the registry and the callbacks do in those frames: the
    cache is only written for tracks that have no binding, and only
    [clear_cache] empties it. *)
Theorem binding_is_stable frames p w tid person :
  tracker_id_to_person p !! tid = Some person ->
  tracker_id_to_person
    (final_proc (frame_loop sim mark unknown frames p w)) !! tid
  = Some person.
Proof.
  intros Hbound.
  by apply (frame_loop_advances tid frames p w).
Qed.

(** C6.  Over all the frames the capture loop processes, at most one
    unknown-person snapshot is written and handed to the callback for any
    one track: the snapshot marks the track as logged, and a logged track
    is never snapped again.  (If the callback raises, the track is not
    marked, and the exception ends the loop.) *)
Theorem one_snapshot_per_track frames p w tid :
  (snapshots_of tid (taken (frame_loop sim mark unknown frames p w)) <= 1)%nat.
Proof.
  destruct (frame_loop_advances tid frames p w) as (_ & _ & _ & [H|[H _]]);
    rewrite H; lia.
Qed.

(** A bound track is not resolved again: what the loop does with it does
    not depend on the faces detected or on the registry. *)
Lemma bound_track_not_resolved inp inp' i t (s : loop_state) person :
  tracker_id_to_person (proc s) !! tracker_id t = Some person ->
  handle_track sim mark unknown inp i t s
  = handle_track sim mark unknown inp' i t s.
Proof.
  intros Hbound. unfold handle_track. rewrite Hbound. by destruct person.
Qed.

(** A track that is marked as logged gets no snapshot. *)
Lemma logged_track_not_snapped frames p w tid :
  tid ∈ logged_unknown_ids p ->
  snapshots_of tid (taken (frame_loop sim mark unknown frames p w)) = 0%nat.
Proof. apply (frame_loop_advances tid frames p w). Qed.

End Frames.

Lemma binding_is_stable_witness :
  tracker_id_to_person
    (final_proc
       (frame_loop Scenario.dot None None
          [Scenario.frame_with Scenario.office_later Scenario.carol]
          Scenario.knows_alice tt)) !! 7
  = Some ("E001", "Alice").
Proof.
  apply (binding_is_stable (W := unit)).
  vm_compute. reflexivity.
Defined.

(** On that frame an unbound track would be taken for Carol. *)
Example unbound_track_is_carol :
  tracker_id_to_person
    (final_proc
       (frame_loop Scenario.dot None None
          [Scenario.frame_with Scenario.office_later Scenario.carol]
          Video.init tt)) !! 7
  = Some ("E003", "Carol").
Proof. vm_compute. reflexivity. Qed.

(** [clear_cache] is what ends a binding. *)
Lemma clear_cache_unbinds p tid :
  tracker_id_to_person (clear_cache p) !! tid = None.
Proof. apply lookup_empty. Qed.

End VideoFacts.

(** ** The capture loop with the tracker attached *)
Module MainFacts.
Import Video.

(** C8, at a failing input.  The connection is opened before the [try] of
    [sync_daily_attendance], so when the server cannot be reached the
    error is not turned into a message: it leaves the sync, then
    [process_recognized_face], then [process_frame], and the capture loop
    ends in its first frame. *)
Theorem sync_failure_ends_the_loop :
  Database.sync_daily_attendance Scenario.at_17_00 Scenario.server_down
    "E001" Scenario.staff
  = (Raised Scenario.unreachable, Scenario.staff)
  /\ fst (fst (Attendance.process_recognized_face (Scenario.server_lost 0)
                 "E001" "Alice" (Attendance.init Scenario.staff)))
     = Raised Scenario.unreachable
  /\ exception
       (Main.start_attendance Scenario.server_lost Scenario.quiet Scenario.dot
          [Scenario.frame_with Scenario.office Scenario.alice;
           Scenario.frame_with Scenario.office Scenario.alice]
          Video.init Scenario.fresh_world)
     = Some Scenario.unreachable
  /\ completed
       (Main.start_attendance Scenario.server_lost Scenario.quiet Scenario.dot
          [Scenario.frame_with Scenario.office Scenario.alice;
           Scenario.frame_with Scenario.office Scenario.alice]
          Video.init Scenario.fresh_world)
     = 0%nat.
Proof. repeat split; vm_compute; reflexivity. Qed.

(** A stranger stays in view for three frames: one snapshot, one row of
    [unknown_faces], one alert. *)
Example stranger_snapped_once :
  let r := Main.start_attendance Scenario.server_lost Scenario.quiet Scenario.dot
             [Scenario.frame_with Scenario.office Scenario.stranger;
              Scenario.frame_with Scenario.office Scenario.stranger;
              Scenario.frame_with Scenario.office Scenario.stranger]
             Video.init Scenario.fresh_world in
  completed r = 3%nat
  /\ snapshots_of 7 (taken r) = 1%nat
  /\ length (Database.unknown_faces
               (Attendance.db_manager (Main.tracker (final_world r)))) = 1%nat
  /\ Main.heard (final_world r)
     = [Attendance.UnknownLogged
          "data/unknown_faces/unknown_20240301_170000_000000.jpg" true;
        Attendance.Alerted 1000].
Proof. repeat split; vm_compute; reflexivity. Qed.

End MainFacts.

(** * Further properties *)

(** ** FaceStore: the registry as a dictionary *)
Module RegistryFacts.
Import FaceStore.

Local Abbreviation entry_of q d :=
  (List.find (fun e : string * face_data => String.eqb (fst e) q) d).

Lemma dict_set_same pid v d : entry_of pid (dict_set pid v d) = Some (pid, v).
Proof.
  induction d as [|e d IH]; simpl.
  - by rewrite String.eqb_refl.
  - destruct (String.eqb (fst e) pid) eqn:He; simpl.
    + by rewrite String.eqb_refl.
    + by rewrite He.
Qed.

Lemma dict_set_other pid q v d :
  q <> pid -> entry_of q (dict_set pid v d) = entry_of q d.
Proof.
  intros Hne. induction d as [|e d IH]; simpl.
  - destruct (String.eqb_spec pid q); [congruence | done].
  - destruct (String.eqb_spec (fst e) pid) as [He|He]; simpl.
    + destruct (String.eqb_spec pid q); [congruence|].
      destruct (String.eqb_spec (fst e) q); [congruence | done].
    + destruct (String.eqb (fst e) q); [done | apply IH].
Qed.

Lemma dict_set_ids pid v d :
  List.map fst (dict_set pid v d)
  = if dict_mem pid d then List.map fst d else List.map fst d ++ [pid].
Proof.
  unfold dict_mem. induction d as [|e d IH]; simpl; [done|].
  destruct (String.eqb_spec (fst e) pid) as [He|He]; simpl.
  - congruence.
  - rewrite IH. by destruct (existsb _ d).
Qed.

Lemma dict_mem_In pid d : dict_mem pid d = true <-> In pid (List.map fst d).
Proof.
  unfold dict_mem. rewrite existsb_exists, in_map_iff. split.
  - intros (e & He & Heq%String.eqb_eq). by exists e.
  - intros (e & <- & He). exists e. by rewrite String.eqb_refl.
Qed.

Lemma dict_del_ids pid d :
  List.map fst (dict_del pid d)
  = List.filter (fun k => negb (String.eqb k pid)) (List.map fst d).
Proof.
  unfold dict_del. induction d as [|e d IH]; simpl; [done|].
  destruct (String.eqb (fst e) pid); simpl; by rewrite IH.
Qed.

Lemma NoDup_bfilter {A} (f : A -> bool) (l : list A) :
  NoDup l -> NoDup (List.filter f l).
Proof.
  induction 1 as [|x l Hx Hl IH]; simpl; [constructor|].
  destruct (f x); [|done].
  constructor; [|done].
  rewrite list_elem_of_In, filter_In, <- list_elem_of_In. tauto.
Qed.

Lemma dict_del_length pid d :
  NoDup (List.map fst d) ->
  length (dict_del pid d)
  = if dict_mem pid d then pred (length d) else length d.
Proof.
  induction d as [|e d IH]; simpl; [done|].
  intros [Hfresh Hd]%NoDup_cons.
  destruct (String.eqb_spec (fst e) pid) as [He|He]; simpl.
  - rewrite FaceStoreFacts.dict_del_absent; [done|].
    apply not_true_is_false. rewrite dict_mem_In.
    rewrite <- He. by rewrite <- list_elem_of_In.
  - unfold dict_del in IH |- *. rewrite IH by done.
    fold (dict_mem pid d).
    destruct (dict_mem pid d) eqn:Hmem; [|done].
    destruct d; [done | simpl; lia].
Qed.

(** X1.  [add_face_encoding] registers the face under the id whatever comes
    of the write: afterwards the id maps to the given name and encoding and
    every other id to what it had.  An id that was registered keeps its place
    in the iteration order, a new one goes last.  The value returned is the
    success of the write, and after a successful write the file holds the
    registry. *)
Theorem add_face_encoding_registers io pid nm enc h :
  let r := add_face_encoding io pid nm enc h in
  entry_of pid (registered_faces (snd r)) = Some (pid, FaceData nm enc)
  /\ (forall q, q <> pid ->
        entry_of q (registered_faces (snd r)) = entry_of q (registered_faces h))
  /\ get_all_registered_ids (snd r)
     = (if dict_mem pid (registered_faces h)
        then get_all_registered_ids h
        else get_all_registered_ids h ++ [pid])
  /\ (fst r = true <-> io = WriteOk)
  /\ (fst r = true -> face_db (snd r) = Pickled (registered_faces (snd r))).
Proof.
  unfold add_face_encoding, get_all_registered_ids.
  destruct io as [|residue]; simpl;
    (split; [apply dict_set_same|]);
    (split; [intros q Hq; by apply dict_set_other|]);
    (split; [apply dict_set_ids|]); by split.
Qed.

(** X2.  On a registry whose ids are distinct, [add_face_encoding] and
    [remove_face_encoding] keep them distinct, and
    [get_registered_count] moves as a dictionary's size does: adding a new id
    adds one, adding a registered id changes nothing, removing a registered
    id takes one away, removing an unknown id changes nothing. *)
Theorem registry_ids_stay_distinct io pid nm enc h :
  NoDup (get_all_registered_ids h) ->
  NoDup (get_all_registered_ids (snd (add_face_encoding io pid nm enc h)))
  /\ NoDup (get_all_registered_ids (snd (remove_face_encoding io pid h)))
  /\ get_registered_count (snd (add_face_encoding io pid nm enc h))
     = (if dict_mem pid (registered_faces h)
        then get_registered_count h else S (get_registered_count h))
  /\ get_registered_count (snd (remove_face_encoding io pid h))
     = (if dict_mem pid (registered_faces h)
        then pred (get_registered_count h) else get_registered_count h).
Proof.
  unfold get_all_registered_ids, get_registered_count. intros Hd.
  assert (registered_faces (snd (add_face_encoding io pid nm enc h))
          = dict_set pid (FaceData nm enc) (registered_faces h)) as ->
    by (unfold add_face_encoding; by destruct io).
  assert (registered_faces (snd (remove_face_encoding io pid h))
          = dict_del pid (registered_faces h)) as ->.
  { unfold remove_face_encoding.
    destruct (dict_mem pid (registered_faces h)) eqn:Hmem.
    - by destruct io.
    - by rewrite FaceStoreFacts.dict_del_absent. }
  rewrite dict_set_ids, dict_del_ids, dict_del_length by done.
  assert (length (dict_set pid (FaceData nm enc) (registered_faces h))
          = length (List.map fst (dict_set pid (FaceData nm enc)
                                    (registered_faces h)))) as ->
    by (by rewrite length_map).
  rewrite dict_set_ids.
  destruct (dict_mem pid (registered_faces h)) eqn:Hmem.
  - split; [done|]. split; [by apply NoDup_bfilter|].
    by rewrite length_map.
  - split.
    + apply NoDup_app. split; [done|]. split; [|apply NoDup_singleton].
      intros k Hk ->%list_elem_of_singleton.
      apply list_elem_of_In, dict_mem_In in Hk. congruence.
    + split; [by apply NoDup_bfilter|].
      rewrite length_app, length_map. simpl. split; [lia | done].
Qed.

Lemma registry_ids_stay_distinct_witness :
  get_all_registered_ids
    (snd (add_face_encoding WriteOk "E003" "Carol" Scenario.carol
            Scenario.office))
  = ["E001"; "E002"; "E003"]
  /\ get_registered_count
       (snd (remove_face_encoding WriteOk "E001" Scenario.office)) = 1%nat.
Proof.
  assert (NoDup (get_all_registered_ids Scenario.office)) as Hd.
  { unfold get_all_registered_ids. simpl.
    apply NoDup_cons. split; [by intros [= ]%list_elem_of_singleton|].
    apply NoDup_singleton. }
  split; [reflexivity|].
  pose proof (registry_ids_stay_distinct WriteOk "E001" "Alice" Scenario.alice
                Scenario.office Hd) as (_ & _ & _ & Hcount).
  exact Hcount.
Defined.

(** X3.  What a successful [add_face_encoding] or [remove_face_encoding]
    wrote is what [reload_face_encodings] reads back: the reload changes
    nothing and returns the number of registered faces. *)
Theorem saved_registry_reloads io pid nm enc h :
  (fst (add_face_encoding io pid nm enc h) = true ->
     reload_face_encodings (snd (add_face_encoding io pid nm enc h))
     = (get_registered_count (snd (add_face_encoding io pid nm enc h)),
        snd (add_face_encoding io pid nm enc h)))
  /\ (fst (remove_face_encoding io pid h) = true ->
        reload_face_encodings (snd (remove_face_encoding io pid h))
        = (get_registered_count (snd (remove_face_encoding io pid h)),
           snd (remove_face_encoding io pid h))).
Proof.
  unfold add_face_encoding, remove_face_encoding.
  split.
  - by destruct io.
  - destruct (dict_mem pid (registered_faces h)); [|done].
    by destruct io.
Qed.

End RegistryFacts.

(** ** FaceStore: what the scan finds *)
Module MatcherFacts.
Import FaceStore.

Section Matcher.

Variable sim : encoding -> encoding -> Q.

Local Abbreviation score query e := (sim query (face_encoding (snd e))).

(** The running maximum never drops below its initial 0.0, and a candidate
    scores above it. *)
Lemma recognize_loop_positive thr query d : forall acc,
  (0 <= max_similarity acc)%Q ->
  (recognized_id acc <> None -> (0 < max_similarity acc)%Q) ->
  let r := recognize_loop sim thr query d acc in
  (0 <= max_similarity r)%Q
  /\ (recognized_id r <> None -> (0 < max_similarity r)%Q).
Proof.
  unfold recognize_loop.
  induction d as [|e d IH]; intros acc H0 Hid; simpl; [done|].
  apply IH; unfold recognize_step;
    destruct (Qgtb _ (max_similarity acc) && Qgtb _ thr) eqn:Hup; simpl;
    try done;
    apply andb_true_iff in Hup as [Hmax%Qgtb_true _]; intros; lra.
Qed.

(** The entry behind a match: its index, with all the scan established. *)
Lemma recognize_face_some h query pid nm s :
  recognize_face sim h query = (Some pid, nm, s) ->
  exists i d,
    registered_faces h !! i = Some (pid, d)
    /\ nm = Some (name d)
    /\ s = sim query (face_encoding d)
    /\ (similarity_threshold h < s)%Q
    /\ (0 < s)%Q
    /\ (forall j e, (j < i)%nat -> registered_faces h !! j = Some e ->
          (score query e < s)%Q)
    /\ (forall e, e ∈ registered_faces h -> (score query e <= s)%Q).
Proof.
  intros Hres.
  destruct (decide (registered_faces h = [])) as [Hd|Hd].
  { unfold recognize_face in Hres. by rewrite Hd in Hres. }
  rewrite FaceStoreFacts.recognize_face_unfold in Hres by done. simpl in Hres.
  injection Hres as Hid Hnm Hs.
  pose proof (FaceStoreFacts.scanned_all sim (similarity_threshold h) query
                (registered_faces h)) as [Hc Hb _].
  pose proof (recognize_loop_positive (similarity_threshold h) query
                (registered_faces h) (Scan 0%Q None None)
                ltac:(simpl; lra) ltac:(done)) as [_ Hpos].
  destruct (Hc pid Hid) as (i & d & Hi & Hname & Hmax & Hthr & Hlt).
  exists i, d. subst nm s.
  split; [done|]. split; [done|]. split; [done|]. split; [done|].
  split; [apply Hpos; congruence|]. split; [done|].
  intros e He. destruct (Hb e He) as [H|H]; lra.
Qed.

(** A qualifying entry leaves the scan with a candidate that scores at
    least as much. *)
Lemma recognize_loop_complete thr query d e :
  e ∈ d ->
  (thr < score query e)%Q ->
  (0 < score query e)%Q ->
  let r := recognize_loop sim thr query d (Scan 0%Q None None) in
  is_Some (recognized_id r) /\ (score query e <= max_similarity r)%Q.
Proof.
  intros He Hthr Hpos r.
  pose proof (FaceStoreFacts.scanned_all sim thr query d) as [Hc Hb Hn].
  fold r in Hc, Hb, Hn.
  destruct (recognized_id r) as [pid|] eqn:Hid.
  - split; [by eexists|].
    destruct (Hc pid eq_refl) as (i & d0 & _ & _ & _ & Hgt & _).
    destruct (Hb e He) as [H|H]; lra.
  - destruct (Hn eq_refl) as [_ Hzero].
    destruct (Hb e He) as [H|H]; [rewrite Hzero in H|]; lra.
Qed.

(** X4.  If some registered entry scores above the threshold and above 0.0,
    [recognize_face] returns a person, and the score it returns is at least
    that entry's: with a threshold that is not negative, a person is
    recognized whenever one qualifies. *)
Theorem recognize_face_finds_match h query e :
  e ∈ registered_faces h ->
  (similarity_threshold h < score query e)%Q ->
  (0 < score query e)%Q ->
  exists pid nm s,
    recognize_face sim h query = (Some pid, Some nm, s)
    /\ (score query e <= s)%Q.
Proof.
  intros He Hthr Hpos.
  assert (registered_faces h <> []) as Hd
    by (intros Hd; rewrite Hd in He; by apply elem_of_nil in He).
  rewrite FaceStoreFacts.recognize_face_unfold by done. simpl.
  destruct (recognize_loop_complete (similarity_threshold h) query
              (registered_faces h) e He Hthr Hpos) as [[pid Hid] Hmax].
  pose proof (FaceStoreFacts.scanned_all sim (similarity_threshold h) query
                (registered_faces h)) as [Hc _ _].
  destruct (Hc pid Hid) as (i & d & _ & Hnm & _).
  exists pid, (name d),
    (max_similarity
       (recognize_loop sim (similarity_threshold h) query (registered_faces h)
          (Scan 0%Q None None))).
  rewrite Hid, Hnm. by split.
Qed.

(** Scores that are not positive never match, whatever the threshold. *)
Lemma recognize_loop_nonpositive thr query d m :
  (forall e, e ∈ d -> (score query e <= 0)%Q) ->
  (0 <= m)%Q ->
  recognize_loop sim thr query d (Scan m None None) = Scan m None None.
Proof.
  unfold recognize_loop.
  induction d as [|e d IH]; intros Hd Hm; simpl; [done|].
  assert (recognize_step sim thr query (Scan m None None) e = Scan m None None)
    as ->.
  { unfold recognize_step. simpl.
    replace (Qgtb (score query e) m) with false; [done|].
    symmetry. apply Qgtb_false.
    pose proof (Hd e ltac:(by left)). lra. }
  apply IH; [|done]. intros e' He'. apply Hd. by right.
Qed.

(** X5.  The scores are compared with the initial maximum 0.0 as well as
    with the threshold: when no registered entry scores above 0.0 nobody is
    recognized, even under a negative threshold that every entry exceeds. *)
Theorem recognize_face_needs_positive_score h query :
  (forall e, e ∈ registered_faces h -> (score query e <= 0)%Q) ->
  recognize_face sim h query = (None, None, 0%Q).
Proof.
  intros Hd. unfold recognize_face.
  destruct (registered_faces h) as [|e d] eqn:Hreg; [done|].
  rewrite recognize_loop_nonpositive; [done | done | lra].
Qed.

(** X6.  Who is recognized does not depend on the threshold, only whether
    somebody is: if a face is matched at some threshold, then at any lower
    threshold, on the same registry, it is matched to the same person with
    the same name and score. *)
Theorem lower_threshold_same_match h1 h2 query pid nm s :
  registered_faces h1 = registered_faces h2 ->
  (similarity_threshold h1 <= similarity_threshold h2)%Q ->
  recognize_face sim h2 query = (Some pid, nm, s) ->
  recognize_face sim h1 query = (Some pid, nm, s).
Proof.
  intros Hreg Hle Hres2.
  destruct (recognize_face_some _ _ _ _ _ Hres2)
    as (i2 & d2 & Hi2 & -> & -> & Hthr2 & Hpos2 & Hlt2 & Hmax2).
  assert ((pid, d2) ∈ registered_faces h1) as Hin
    by (rewrite Hreg; by eapply list_elem_of_lookup_2).
  destruct (recognize_loop_complete (similarity_threshold h1) query
              (registered_faces h1) (pid, d2) Hin ltac:(simpl; lra) Hpos2)
    as [[pid1 Hid1] _].
  destruct (recognize_face sim h1 query) as [[rid1 nm1] s1] eqn:Hres1.
  assert (rid1 = Some pid1) as ->.
  { rewrite FaceStoreFacts.recognize_face_unfold in Hres1
      by (intros Hd; rewrite Hd in Hin; by apply elem_of_nil in Hin).
    simpl in Hres1. congruence. }
  destruct (recognize_face_some _ _ _ _ _ Hres1)
    as (i1 & d1 & Hi1 & -> & -> & _ & _ & Hlt1 & Hmax1).
  rewrite Hreg in Hi1, Hlt1, Hmax1.
  destruct (lt_eq_lt_dec i1 i2) as [[Hlt| ->]|Hlt].
  - pose proof (Hlt2 _ _ Hlt Hi1) as H. simpl in H.
    pose proof (Hmax1 _ (list_elem_of_lookup_2 _ _ _ Hi2)) as H'. simpl in H'.
    lra.
  - rewrite Hi2 in Hi1. by injection Hi1 as <- <-.
  - pose proof (Hlt1 _ _ Hlt Hi2) as H. simpl in H.
    pose proof (Hmax2 _ (list_elem_of_lookup_2 _ _ _ Hi1)) as H'. simpl in H'.
    lra.
Qed.

Lemma entry_of_unique (d : registry) i k v :
  NoDup (List.map fst d) ->
  d !! i = Some (k, v) ->
  List.find (fun e => String.eqb (fst e) k) d = Some (k, v).
Proof.
  revert i. induction d as [|e d IH]; intros i Hd Hi; [done|].
  apply NoDup_cons in Hd as [Hfresh Hd]. simpl.
  destruct i as [|i]; simpl in Hi.
  - injection Hi as ->. simpl. by rewrite String.eqb_refl.
  - destruct (String.eqb_spec (fst e) k) as [He|He]; [|by apply (IH i)].
    destruct Hfresh. rewrite He.
    apply list_elem_of_lookup_2 in Hi.
    apply list_elem_of_In, in_map_iff. exists (k, v).
    split; [done | by apply list_elem_of_In].
Qed.

(** X7.  [verify_face] agrees with [recognize_face]: on a registry with
    distinct ids, the person [recognize_face] returns for a face passes
    [verify_face] for that face, with the same score. *)
Theorem recognized_face_verifies h query pid nm s :
  NoDup (get_all_registered_ids h) ->
  recognize_face sim h query = (Some pid, nm, s) ->
  verify_face sim h pid query = (true, s).
Proof.
  intros Hd Hres.
  destruct (recognize_face_some _ _ _ _ _ Hres)
    as (i & d & Hi & _ & -> & Hthr & _).
  unfold verify_face. rewrite (entry_of_unique _ i pid d Hd Hi). simpl.
  f_equal. by apply Qgtb_true.
Qed.

(** X8.  The duplicate check of the registration dialogue,
    [exist_id is not None and sim > 0.5], adds nothing to [recognize_face]
    when the threshold is at least 0.5: it flags a face exactly when
    [recognize_face] returns a person for it. *)
Theorem duplicate_check_is_recognition h query :
  (1 # 2 <= similarity_threshold h)%Q ->
  Main.duplicate_detected sim h query
  = bool_decide (is_Some (fst (fst (recognize_face sim h query)))).
Proof.
  intros Hthr. unfold Main.duplicate_detected.
  destruct (recognize_face sim h query) as [[[pid|] nm] s] eqn:Hres.
  - destruct (recognize_face_some _ _ _ _ _ Hres)
      as (i & d & _ & _ & _ & Hgt & _).
    transitivity true.
    + apply Qgtb_true. lra.
    + symmetry. apply bool_decide_eq_true_2. simpl. eauto.
  - symmetry. apply bool_decide_eq_false_2. simpl. by intros [? ?].
Qed.

End Matcher.

Lemma recognize_face_finds_match_witness :
  exists pid nm s,
    recognize_face Scenario.dot Scenario.office Scenario.carol
    = (Some pid, Some nm, s)
    /\ (Scenario.dot Scenario.carol Scenario.bob <= s)%Q.
Proof.
  apply (recognize_face_finds_match Scenario.dot Scenario.office Scenario.carol
           ("E002", FaceData "Bob" Scenario.bob)).
  - apply list_elem_of_further, list_elem_of_here.
  - vm_compute. reflexivity.
  - vm_compute. reflexivity.
Defined.

Lemma recognize_face_needs_positive_score_witness :
  recognize_face Scenario.dot
    {| similarity_threshold := (-1 # 2)%Q;
       registered_faces := registered_faces Scenario.office;
       face_db := NoFile |}
    [(-1 # 10)%Q; (-1 # 10)%Q]
  = (None, None, 0%Q).
Proof.
  apply recognize_face_needs_positive_score.
  intros e He. simpl in He.
  apply elem_of_cons in He as [->|He];
    [|apply elem_of_cons in He as [->|He]; [|by apply elem_of_nil in He]];
    vm_compute; discriminate.
Defined.

Lemma lower_threshold_same_match_witness :
  recognize_face Scenario.dot
    {| similarity_threshold := (1 # 10)%Q;
       registered_faces := registered_faces Scenario.office;
       face_db := NoFile |}
    Scenario.carol
  = (Some "E002", Some "Bob", Scenario.dot Scenario.carol Scenario.bob).
Proof.
  apply (lower_threshold_same_match Scenario.dot _ Scenario.office).
  - reflexivity.
  - vm_compute. discriminate.
  - vm_compute. reflexivity.
Defined.

Lemma recognized_face_verifies_witness :
  verify_face Scenario.dot Scenario.office "E002" Scenario.carol
  = (true, Scenario.dot Scenario.carol Scenario.bob).
Proof.
  apply (recognized_face_verifies Scenario.dot Scenario.office Scenario.carol
           "E002" (Some "Bob")).
  - unfold get_all_registered_ids. simpl.
    apply NoDup_cons. split; [by intros [= ]%list_elem_of_singleton|].
    apply NoDup_singleton.
  - vm_compute. reflexivity.
Defined.

Lemma duplicate_check_is_recognition_witness :
  Main.duplicate_detected Scenario.dot Scenario.office
    [(6 # 10)%Q; (-8 # 10)%Q]
  = bool_decide
      (is_Some (fst (fst (recognize_face Scenario.dot Scenario.office
                            [(6 # 10)%Q; (-8 # 10)%Q])))).
Proof.
  apply duplicate_check_is_recognition. vm_compute. discriminate.
Defined.

End MatcherFacts.

(** ** Database: what a sync can do *)
Module SyncFacts.
Import Database Integrity.

(** The three ways a sync can end. *)
Lemma sync_cases c f pid d :
  let r := sync_daily_attendance c f pid d in
  (snd r = d
   /\ match fst r with
      | Raised _ => True
      | Returned msg =>
          msg = "Error: Person not found" \/ exists err, msg = db_error err
      end)
  \/ (has_person pid d = true
      /\ select_attendance pid (today c) d = None
      /\ fst r = Returned ("LOGIN: " +:+ current_time c)
      /\ snd r = insert_attendance pid (today c) (current_time c) d)
  \/ (exists p row,
        select_person pid d = Some p
        /\ select_attendance pid (today c) d = Some row
        /\ fst r = Returned
                     (if user_shift_end_hour (shift_end p) <=? hour c
                      then "LOGOUT UPDATE: " +:+ current_time c
                      else "Shift Ongoing (Ends " +:+ fmt (shift_end p) +:+ ")")
        /\ snd r = update_leaving pid (today c) (current_time c) d).
Proof.
  unfold sync_daily_attendance, unguarded, guarded.
  destruct (f Connect); [left; by split|].
  destruct (f Cursor); [left; by split|].
  destruct (f (Execute SelectShiftEnd)); [left; split; [done | right; eauto]|].
  destruct (select_person pid d) as [p|] eqn:Hp; [|left; split; [done | by left]].
  assert (has_person pid d = true) as Hhas.
  { unfold has_person, select_person in *.
    apply find_some in Hp as [Hin Hp]. apply existsb_exists. eauto. }
  destruct (f (Execute SelectAttendance)); [left; split; [done | right; eauto]|].
  destruct (select_attendance pid (today c) d) as [row|] eqn:Hrow.
  - destruct (f (Execute UpdateLeaving));
      [left; split; [done | right; eauto]|].
    destruct (f Commit); [left; split; [done | right; eauto]|].
    right. right. by exists p, row.
  - destruct (f (Execute InsertAttendance));
      [left; split; [done | right; eauto]|].
    destruct (f Commit); [left; split; [done | right; eauto]|].
    right. by left.
Qed.

(** X9.  A sync that does not go through writes nothing: when
    [sync_daily_attendance] raises, or returns "DB Error: ..." or
    "Error: Person not found", the database is what it was. *)
Theorem failed_sync_writes_nothing c f pid d :
  match fst (sync_daily_attendance c f pid d) with
  | Raised _ => True
  | Returned msg =>
      String.prefix "DB Error: " msg = true \/ msg = "Error: Person not found"
  end ->
  snd (sync_daily_attendance c f pid d) = d.
Proof.
  intros Hfail.
  destruct (sync_cases c f pid d) as [[Hsame _]|[(_ & _ & Hres & _)|Hupd]];
    [done | |].
  - rewrite Hres in Hfail. by destruct Hfail.
  - destruct Hupd as (p & row & _ & _ & Hres & _).
    rewrite Hres in Hfail.
    destruct (user_shift_end_hour (shift_end p) <=? hour c);
      by destruct Hfail.
Qed.

Lemma failed_sync_writes_nothing_witness :
  snd (sync_daily_attendance Scenario.at_17_00 no_fault "E999"
         Scenario.staff_arrived)
  = Scenario.staff_arrived.
Proof.
  apply failed_sync_writes_nothing. vm_compute. by right.
Defined.

Lemma select_attendance_none_key pid date d :
  select_attendance pid date d = None -> (pid, date) ∉ attendance_keys d.
Proof.
  unfold select_attendance, attendance_keys. intros Hnone Hin.
  apply list_elem_of_In, in_map_iff in Hin as (r & [= Hp Hd] & Hr).
  pose proof (find_none _ _ Hnone r Hr) as Hno.
  unfold is_record in Hno. by rewrite Hp, Hd, !String.eqb_refl in Hno.
Qed.

Lemma update_leaving_keys pid date time d :
  attendance_keys (update_leaving pid date time d) = attendance_keys d.
Proof.
  unfold attendance_keys, update_leaving. simpl. rewrite List.map_map.
  apply List.map_ext. intros r. by destruct (is_record pid date r).
Qed.

Lemma consistent_sync c f pid d :
  consistent d -> consistent (snd (sync_daily_attendance c f pid d)).
Proof.
  intros [Hids Hkeys Hatt Hlogs].
  destruct (sync_cases c f pid d)
    as [[-> _]|[(Hhas & Hnone & _ & ->)|(p & row & _ & _ & _ & ->)]];
    [done | |].
  - split; [done | | | done].
    + unfold attendance_keys, insert_attendance. simpl.
      rewrite List.map_app. simpl.
      apply NoDup_app. split; [done|]. split; [|apply NoDup_singleton].
      intros k Hk ->%list_elem_of_singleton.
      by apply (select_attendance_none_key _ _ _ Hnone).
    + intros r [Hr| ->%list_elem_of_singleton]%elem_of_app;
        [by apply Hatt | done].
  - split; [done | by rewrite update_leaving_keys | | done].
    intros r Hr. unfold update_leaving in Hr. simpl in Hr.
    apply list_elem_of_In, in_map_iff in Hr as (r0 & <- & Hr0).
    apply list_elem_of_In, Hatt in Hr0.
    by destruct (is_record pid (today c) r0).
Qed.

Lemma log_raw_detection_cases c f pid nm d :
  let r := log_raw_detection c f pid nm d in
  snd r = d
  \/ (has_person pid d = true
      /\ fst r = Returned tt
      /\ snd r = insert_face_log pid nm (current_date c) (current_time c) d).
Proof.
  unfold log_raw_detection, unguarded, guarded.
  destruct (f Connect); [by left|].
  destruct (f Cursor); [by left|].
  destruct (f (Execute InsertFaceLog)); [by left|].
  destruct (select_person pid d) as [p|] eqn:Hp; [|by left].
  destruct (f Commit); [by left|].
  right. split; [|done].
  unfold has_person, select_person in *.
  apply find_some in Hp as [Hin Hp]. apply existsb_exists. eauto.
Qed.

(** X10.  The writes of the recognition pipeline keep the constraints of
    the schema -- distinct person ids, at most one attendance row per person
    and date, attendance rows and raw logs that refer to a registered
    person -- whatever faults they meet: [sync_daily_attendance],
    [log_raw_detection] and [log_unknown_person] take a consistent database
    to a consistent one. *)
Theorem pipeline_keeps_constraints c f pid nm path enc d :
  consistent d ->
  consistent (snd (sync_daily_attendance c f pid d))
  /\ consistent (snd (log_raw_detection c f pid nm d))
  /\ consistent (snd (log_unknown_person f path enc d)).
Proof.
  intros Hd. split; [by apply consistent_sync|]. split.
  - destruct (log_raw_detection_cases c f pid nm d) as [->|(Hhas & _ & ->)];
      [done|].
    destruct Hd as [Hids Hkeys Hatt Hlogs].
    split; [done | done | done |].
    intros l [Hl| ->%list_elem_of_singleton]%elem_of_app;
      [by apply Hlogs | done].
  - unfold log_unknown_person, unguarded, guarded.
    repeat (match goal with
            | |- context [match ?x with _ => _ end] => destruct x
            end; simpl; try done).
    by destruct Hd.
Qed.

Lemma pipeline_keeps_constraints_witness :
  consistent
    (snd (sync_daily_attendance Scenario.at_17_00 no_fault "E001"
            Scenario.staff)).
Proof.
  apply (pipeline_keeps_constraints Scenario.at_17_00 no_fault "E001" "Alice"
           "x.jpg" Scenario.carol Scenario.staff).
  split; simpl.
  - apply NoDup_singleton.
  - apply NoDup_nil_2.
  - intros r Hr. by apply elem_of_nil in Hr.
  - intros l Hl. by apply elem_of_nil in Hl.
Defined.

(** What one sync leaves of a row. *)
Lemma sync_keeps_row c f pid d i row :
  attendance d !! i = Some row ->
  exists row',
    attendance (snd (sync_daily_attendance c f pid d)) !! i = Some row'
    /\ a_id row' = a_id row
    /\ a_person_id row' = a_person_id row
    /\ a_date row' = a_date row
    /\ arrival_time row' = arrival_time row
    /\ status row' = status row.
Proof.
  intros Hi.
  destruct (sync_cases c f pid d)
    as [[-> _]|[(_ & _ & _ & ->)|(p & row0 & _ & _ & _ & ->)]].
  - by exists row.
  - exists row. split; [|done]. simpl. by apply lookup_app_l_Some.
  - eexists. split; [by apply DatabaseFacts.update_leaving_lookup|].
    by destruct (is_record pid (today c) row).
Qed.

(** A person's row for a date stays through a sequence of syncs. *)
Lemma sync_all_keeps_key calls pid date : forall d,
  (exists row, row ∈ attendance d
               /\ a_person_id row = pid /\ a_date row = date) ->
  exists row, row ∈ attendance (sync_all calls d)
              /\ a_person_id row = pid /\ a_date row = date.
Proof.
  unfold sync_all.
  induction calls as [|call calls IH]; intros d Hrow; simpl; [done|].
  apply IH.
  destruct Hrow as (row & [i Hi]%list_elem_of_lookup_1 & Hp & Hd).
  destruct (sync_keeps_row (sc_clock call) (sc_faults call) (sc_person call)
              d i row Hi) as (row1 & Hi1 & _ & Hp1 & Hd1 & _).
  exists row1. split; [by eapply list_elem_of_lookup_2 | split; congruence].
Qed.

(** X11.  The arrival time is written once: through any sequence of
    syncs, for any persons, clocks and faults, every attendance row keeps
    its place, id, person, date, arrival time and status; only its leaving
    time can change. *)
Theorem arrival_is_written_once calls : forall d i row,
  attendance d !! i = Some row ->
  exists row',
    attendance (sync_all calls d) !! i = Some row'
    /\ a_id row' = a_id row
    /\ a_person_id row' = a_person_id row
    /\ a_date row' = a_date row
    /\ arrival_time row' = arrival_time row
    /\ status row' = status row.
Proof.
  unfold sync_all.
  induction calls as [|call calls IH]; intros d i row Hi; simpl.
  - by exists row.
  - destruct (sync_keeps_row (sc_clock call) (sc_faults call) (sc_person call)
                d i row Hi) as (row1 & Hi1 & Hid & Hp & Hd & Ha & Hs).
    destruct (IH _ i row1 Hi1) as (row' & Hi' & Hid' & Hp' & Hd' & Ha' & Hs').
    exists row'. split; [done|]. repeat split; congruence.
Qed.

Lemma arrival_is_written_once_witness :
  exists row',
    attendance
      (sync_all [SyncCall Scenario.at_18_30 no_fault "E001";
                 SyncCall Scenario.at_18_30 Scenario.server_down "E001"]
         Scenario.staff_arrived) !! 0%nat = Some row'
    /\ a_id row' = 1
    /\ a_person_id row' = "E001"
    /\ a_date row' = "2024-03-01"
    /\ arrival_time row' = Some "17:00:00"
    /\ status row' = Some "Present".
Proof.
  apply (arrival_is_written_once
           [SyncCall Scenario.at_18_30 no_fault "E001";
            SyncCall Scenario.at_18_30 Scenario.server_down "E001"]
           Scenario.staff_arrived 0%nat
           (AttendanceRow 1 "E001" "2024-03-01" (Some "17:00:00")
              (Some "17:00:00") (Some "Present"))).
  reflexivity.
Defined.

(** X12.  One LOGIN per person and day: once an attendance row exists for a
    person and date, no sync of that person on that date -- after any other
    syncs, under any faults -- returns a "LOGIN: ..." message or adds an
    attendance row. *)
Theorem no_second_login calls c f pid d :
  (exists row, row ∈ attendance d
               /\ a_person_id row = pid /\ a_date row = today c) ->
  let r := sync_daily_attendance c f pid (sync_all calls d) in
  (forall msg, fst r = Returned msg -> String.prefix "LOGIN: " msg = false)
  /\ length (attendance (snd r)) = length (attendance (sync_all calls d)).
Proof.
  intros Hrow r. subst r.
  destruct (DatabaseFacts.select_attendance_some pid (today c)
              (sync_all calls d)) as [row0 Hrow0];
    [by apply sync_all_keeps_key|].
  destruct (sync_cases c f pid (sync_all calls d))
    as [[-> Hmsg]|[(_ & Hnone & _)|(p & row1 & _ & _ & -> & ->)]].
  - split; [|done]. intros msg Hres. rewrite Hres in Hmsg.
    by destruct Hmsg as [->|[err ->]].
  - congruence.
  - split.
    + intros msg [= <-]. by destruct (_ <=? _).
    + simpl. by rewrite length_map.
Qed.

Lemma no_second_login_witness :
  (forall msg,
     fst (sync_daily_attendance Scenario.at_18_30 no_fault "E001"
            (sync_all [] Scenario.staff_arrived)) = Returned msg ->
     String.prefix "LOGIN: " msg = false)
  /\ length (attendance
               (snd (sync_daily_attendance Scenario.at_18_30 no_fault "E001"
                       (sync_all [] Scenario.staff_arrived))))
     = length (attendance (sync_all [] Scenario.staff_arrived)).
Proof.
  apply (no_second_login [] Scenario.at_18_30 no_fault "E001"
           Scenario.staff_arrived).
  eexists. split; [apply list_elem_of_here|]. split; reflexivity.
Defined.

Lemma filter_map_length {A} (p : A -> bool) (g : A -> A) (l : list A) :
  (forall x, p (g x) = p x) ->
  length (List.filter p (List.map g l)) = length (List.filter p l).
Proof.
  intros Hg. induction l as [|x l IH]; simpl; [done|].
  rewrite Hg. destruct (p x); simpl; by rewrite IH.
Qed.

(** X13.  [get_statistics] counts the logins: a sync leaves
    [total_persons] as it is and raises [present_today] (for the sync's date)
    by one exactly when it returns a "LOGIN: ..." message; a sync that
    updates a row, fails or raises leaves the count as it is. *)
Theorem login_raises_present_today c f pid d :
  let r := sync_daily_attendance c f pid d in
  get_statistics (today c) no_op_fault (snd r)
  = Returned
      {| total_persons := length (persons d);
         present_today :=
           (length (List.filter (fun row => String.eqb (a_date row) (today c))
                      (attendance d))
            + match fst r with
              | Returned msg => if String.prefix "LOGIN: " msg then 1 else 0
              | Raised _ => 0
              end)%nat |}.
Proof.
  unfold get_statistics. simpl.
  destruct (sync_cases c f pid d)
    as [[-> Hmsg]|[(_ & _ & -> & ->)|(p & row & _ & _ & -> & ->)]].
  - destruct (fst _) as [msg|err]; [|by rewrite Nat.add_0_r].
    destruct Hmsg as [->|[err ->]]; simpl; by rewrite Nat.add_0_r.
  - simpl. rewrite List.filter_app, length_app. simpl.
    rewrite String.eqb_refl. by destruct (current_time c).
  - simpl. rewrite filter_map_length.
    + destruct (_ <=? _); simpl; by rewrite Nat.add_0_r.
    + intros x. by destruct (is_record pid (today c) x).
Qed.

(** [log_raw_detection] writes at most one row, to [face_logs] only,
    holding the id, the name and the clock's date and time; it logs nothing
    for an id that has no [persons] row; and once the connection and the
    cursor are there it never raises. *)
Lemma log_raw_detection_appends c f pid nm d :
  let r := log_raw_detection c f pid nm d in
  persons (snd r) = persons d
  /\ attendance (snd r) = attendance d
  /\ unknown_faces (snd r) = unknown_faces d
  /\ (face_logs (snd r) = face_logs d
      \/ face_logs (snd r)
         = face_logs d ++ [FaceLogRow pid nm (current_date c) (current_time c)])
  /\ (has_person pid d = false -> snd r = d)
  /\ (f Connect = None -> f Cursor = None -> fst r = Returned tt).
Proof.
  simpl. split; [|split; [|split; [|split; [|split]]]].
  1-5: destruct (log_raw_detection_cases c f pid nm d) as [->|(Hhas & _ & ->)];
         simpl; try done; auto; congruence.
  intros Hc Hk. unfold log_raw_detection, unguarded, guarded.
  rewrite Hc, Hk.
  repeat (match goal with
          | |- context [match ?x with _ => _ end] => destruct x
          end; simpl; try done).
Qed.

End SyncFacts.

(** ** Database: person management *)
Module PersonFacts.
Import Database Integrity.

Lemma has_person_ids pid d : has_person pid d = true <-> pid ∈ person_ids d.
Proof.
  unfold has_person, person_ids.
  rewrite existsb_exists, list_elem_of_In, in_map_iff. split.
  - intros (p & Hin & Hp%String.eqb_eq). by exists p.
  - intros (p & <- & Hin). exists p. by rewrite String.eqb_refl.
Qed.

Lemma has_person_same_ids pid d d' :
  person_ids d' = person_ids d -> has_person pid d' = has_person pid d.
Proof.
  intros Hids. apply eq_true_iff_eq. by rewrite !has_person_ids, Hids.
Qed.

Lemma add_person_cases f pid nm enc email dept s1 s2 d :
  let r := add_person f pid nm enc email dept s1 s2 d in
  (snd r = d /\ forall msg, fst r <> Returned (true, msg))
  \/ (has_person pid d = false
      /\ fst r = Returned (true, "Person added successfully")
      /\ snd r = set_persons
                   (persons d ++ [PersonRow pid nm (Some s1) (Some s2)]) d).
Proof.
  unfold add_person.
  destruct (at_connect f); [by left|].
  destruct (at_cursor f); [by left|].
  destruct (at_execute f); [by left|].
  destruct (has_person pid d) eqn:Hhas; [by left|].
  destruct (at_commit f); [by left | by right].
Qed.

Lemma update_person_cases f pid nm email dept s1 s2 d :
  let r := update_person f pid nm email dept s1 s2 d in
  (snd r = d /\ forall msg, fst r <> Returned (true, msg))
  \/ (fst r = Returned (true, "Update Successful")
      /\ snd r = set_persons
                   (List.map
                      (fun p => if String.eqb (person_id p) pid
                                then PersonRow (person_id p) nm (Some s1) (Some s2)
                                else p)
                      (persons d)) d).
Proof.
  unfold update_person.
  destruct (at_connect f); [by left|].
  destruct (at_cursor f); [by left|].
  destruct (at_execute f); [by left|].
  destruct (at_commit f); [by left | by right].
Qed.

Lemma delete_person_cases f pid d :
  let r := delete_person f pid d in
  (snd r = d /\ forall msg, fst r <> Returned (true, msg))
  \/ (fst r = Returned (true, "Deleted Successfully")
      /\ snd r = delete_rows pid d).
Proof.
  unfold delete_person.
  destruct (at_connect f); [by left|].
  destruct (at_cursor f); [by left|].
  destruct (at_execute f); [by left|].
  destruct (at_commit f); [by left | by right].
Qed.

Lemma update_person_ids pid nm s1 s2 ps :
  List.map person_id
    (List.map (fun p => if String.eqb (person_id p) pid
                        then PersonRow (person_id p) nm (Some s1) (Some s2)
                        else p) ps)
  = List.map person_id ps.
Proof.
  rewrite List.map_map. apply List.map_ext.
  intros p. by destruct (String.eqb (person_id p) pid).
Qed.

Lemma map_bfilter {A B} (g : A -> B) (p : B -> bool) (l : list A) :
  List.map g (List.filter (fun x => p (g x)) l) = List.filter p (List.map g l).
Proof.
  induction l as [|x l IH]; simpl; [done|].
  destruct (p (g x)); simpl; by rewrite IH.
Qed.

Lemma consistent_delete pid d : consistent d -> consistent (delete_rows pid d).
Proof.
  intros [Hids Hkeys Hatt Hlogs].
  assert (forall q, q <> pid -> has_person q d = true ->
                    has_person q (delete_rows pid d) = true) as Hkeep.
  { intros q Hq. unfold has_person, delete_rows. simpl.
    rewrite !existsb_exists. intros (p & Hin & Hp).
    exists p. split; [|done]. apply filter_In. split; [done|].
    apply String.eqb_eq in Hp. rewrite Hp.
    apply negb_true_iff, String.eqb_neq. done. }
  split.
  - unfold person_ids, delete_rows. simpl.
    rewrite (map_bfilter person_id (fun k => negb (String.eqb k pid))).
    by apply RegistryFacts.NoDup_bfilter.
  - unfold attendance_keys, delete_rows. simpl.
    rewrite (map_bfilter (fun r => (a_person_id r, a_date r))
               (fun k => negb (String.eqb (fst k) pid))).
    by apply RegistryFacts.NoDup_bfilter.
  - intros r Hr. unfold delete_rows in Hr. simpl in Hr.
    apply list_elem_of_In, filter_In in Hr as [Hr Hne].
    apply negb_true_iff, String.eqb_neq in Hne.
    apply Hkeep; [done|]. by apply Hatt, list_elem_of_In.
  - intros l Hl. unfold delete_rows in Hl. simpl in Hl.
    apply list_elem_of_In, filter_In in Hl as [Hl Hne].
    apply negb_true_iff, String.eqb_neq in Hne.
    apply Hkeep; [done|]. by apply Hlogs, list_elem_of_In.
Qed.

(** X14.  Person management keeps the constraints of the schema, whatever
    faults it meets: [add_person], [update_person] and [delete_person] take
    a consistent database to a consistent one -- ids stay distinct, an
    update never changes an id, and a deletion takes the person's attendance
    rows and raw logs with it. *)
Theorem management_keeps_constraints f pid nm enc email dept s1 s2 d :
  consistent d ->
  consistent (snd (add_person f pid nm enc email dept s1 s2 d))
  /\ consistent (snd (update_person f pid nm email dept s1 s2 d))
  /\ consistent (snd (delete_person f pid d)).
Proof.
  intros Hd. split; [|split].
  - destruct (add_person_cases f pid nm enc email dept s1 s2 d)
      as [[-> _]|(Hfree & _ & ->)]; [done|].
    destruct Hd as [Hids Hkeys Hatt Hlogs].
    assert (forall q, has_person q d = true ->
              has_person q (set_persons
                              (persons d ++ [PersonRow pid nm (Some s1) (Some s2)])
                              d) = true) as Hkeep.
    { intros q. unfold has_person. simpl. rewrite existsb_app.
      intros ->. done. }
    split; simpl; [| done | by intros r Hr; apply Hkeep, Hatt
                   | by intros l Hl; apply Hkeep, Hlogs].
    unfold person_ids. simpl. rewrite List.map_app. simpl.
    apply NoDup_app. split; [done|]. split; [|apply NoDup_singleton].
    intros k Hk ->%list_elem_of_singleton.
    apply has_person_ids in Hk. congruence.
  - destruct (update_person_cases f pid nm email dept s1 s2 d)
      as [[-> _]|(_ & ->)]; [done|].
    destruct Hd as [Hids Hkeys Hatt Hlogs].
    assert (person_ids
              (set_persons
                 (List.map
                    (fun p => if String.eqb (person_id p) pid
                              then PersonRow (person_id p) nm (Some s1) (Some s2)
                              else p) (persons d)) d)
            = person_ids d) as Hsame
      by apply update_person_ids.
    split; simpl; [by rewrite Hsame | done | |].
    + intros r Hr. rewrite (has_person_same_ids _ d _ Hsame). by apply Hatt.
    + intros l Hl. rewrite (has_person_same_ids _ d _ Hsame). by apply Hlogs.
  - destruct (delete_person_cases f pid d) as [[-> _]|(_ & ->)]; [done|].
    by apply consistent_delete.
Qed.

Lemma staff_arrived_consistent : consistent Scenario.staff_arrived.
Proof.
  split; simpl.
  - apply NoDup_singleton.
  - apply NoDup_singleton.
  - intros r ->%list_elem_of_singleton. reflexivity.
  - intros l Hl. by apply elem_of_nil in Hl.
Qed.

Lemma management_keeps_constraints_witness :
  consistent (snd (delete_person no_op_fault "E001" Scenario.staff_arrived))
  /\ attendance (snd (delete_person no_op_fault "E001" Scenario.staff_arrived))
     = [].
Proof.
  split; [|reflexivity].
  apply (management_keeps_constraints no_op_fault "E001" "Alice" Scenario.alice
           None None "09:00" "18:00" Scenario.staff_arrived
           staff_arrived_consistent).
Defined.

(** X15.  [add_person] never overwrites a person: for an id that already
    has a [persons] row it leaves the database as it is and does not report
    success, under any faults. *)
Theorem add_person_keeps_existing f pid nm enc email dept s1 s2 d :
  has_person pid d = true ->
  snd (add_person f pid nm enc email dept s1 s2 d) = d
  /\ forall msg,
       fst (add_person f pid nm enc email dept s1 s2 d) <> Returned (true, msg).
Proof.
  intros Hhas.
  destruct (add_person_cases f pid nm enc email dept s1 s2 d)
    as [H|(Hfree & _)]; [done | congruence].
Qed.

Lemma add_person_keeps_existing_witness :
  add_person no_op_fault "E001" "Mallory" Scenario.carol None None
    "00:00" "23:00" Scenario.staff
  = (Returned (false, "Person ID already exists"), Scenario.staff)
  /\ snd (add_person no_op_fault "E001" "Mallory" Scenario.carol None None
            "00:00" "23:00" Scenario.staff) = Scenario.staff.
Proof.
  split; [reflexivity|].
  apply (add_person_keeps_existing no_op_fault "E001" "Mallory" Scenario.carol
           None None "00:00" "23:00" Scenario.staff).
  reflexivity.
Defined.

Lemma select_person_app_new pid row d :
  has_person pid d = false -> person_id row = pid ->
  select_person pid (set_persons (persons d ++ [row]) d) = Some row.
Proof.
  unfold has_person, select_person. simpl. intros Hfree Hrow.
  induction (persons d) as [|p ps IH]; simpl in *.
  - by rewrite Hrow, String.eqb_refl.
  - apply orb_false_iff in Hfree as [Hp Hps]. rewrite Hp. by apply IH.
Qed.

(** X16.  A newly added person logs in at the first sync: on a consistent
    database, after [add_person] has succeeded, a sync of that person that
    meets no fault inserts the attendance row and returns
    "LOGIN: <current time>". *)
Theorem new_person_first_sync_logs_in f pid nm enc email dept s1 s2 d msg c sf :
  consistent d ->
  fst (add_person f pid nm enc email dept s1 s2 d) = Returned (true, msg) ->
  (forall s, sf s = None) ->
  fst (sync_daily_attendance c sf pid
         (snd (add_person f pid nm enc email dept s1 s2 d)))
  = Returned ("LOGIN: " +:+ current_time c).
Proof.
  intros Hd Hok Hsf.
  destruct (add_person_cases f pid nm enc email dept s1 s2 d)
    as [[_ Hno]|(Hfree & _ & ->)]; [by destruct (Hno msg)|].
  rewrite DatabaseFacts.sync_no_fault by done.
  rewrite select_person_app_new by done.
  rewrite DatabaseFacts.select_attendance_none; [done|].
  simpl. intros r Hr [Hp _].
  pose proof (attendance_refers d Hd r Hr). congruence.
Qed.

Lemma new_person_first_sync_logs_in_witness :
  fst (sync_daily_attendance Scenario.at_17_00 no_fault "E002"
         (snd (add_person no_op_fault "E002" "Bob" Scenario.bob None None
                 "08:00" "16:00" Scenario.staff_arrived)))
  = Returned ("LOGIN: " +:+ current_time Scenario.at_17_00).
Proof.
  apply (new_person_first_sync_logs_in no_op_fault "E002" "Bob" Scenario.bob
           None None "08:00" "16:00" Scenario.staff_arrived
           "Person added successfully" Scenario.at_17_00 no_fault
           staff_arrived_consistent eq_refl (fun _ => eq_refl)).
Defined.

Lemma delete_rows_no_person pid d : has_person pid (delete_rows pid d) = false.
Proof.
  unfold has_person, delete_rows. simpl.
  apply not_true_is_false. rewrite existsb_exists.
  intros (p & [_ Hne]%filter_In & Hp). by rewrite Hp in Hne.
Qed.

(** X17.  A deletion that reports success leaves nothing of the person:
    no [persons] row, no attendance row, no raw log; the rows of everybody
    else, in the three tables, are the ones that were there. *)
Theorem delete_person_cascades f pid d msg :
  fst (delete_person f pid d) = Returned (true, msg) ->
  let d' := snd (delete_person f pid d) in
  has_person pid d' = false
  /\ (forall r, r ∈ attendance d' -> a_person_id r <> pid)
  /\ (forall l, l ∈ face_logs d' -> fl_person_id l <> pid)
  /\ (forall q, q <> pid ->
        select_person q d' = select_person q d
        /\ List.filter (fun r => String.eqb (a_person_id r) q) (attendance d')
           = List.filter (fun r => String.eqb (a_person_id r) q) (attendance d)
        /\ List.filter (fun l => String.eqb (fl_person_id l) q) (face_logs d')
           = List.filter (fun l => String.eqb (fl_person_id l) q) (face_logs d)).
Proof.
  intros Hok.
  destruct (delete_person_cases f pid d) as [[_ Hno]|(_ & ->)];
    [by destruct (Hno msg)|].
  simpl. split; [|split; [|split]].
  - apply delete_rows_no_person.
  - intros r [_ Hne]%list_elem_of_In%filter_In.
    by apply negb_true_iff, String.eqb_neq in Hne.
  - intros l [_ Hne]%list_elem_of_In%filter_In.
    by apply negb_true_iff, String.eqb_neq in Hne.
  - intros q Hq. unfold select_person, delete_rows. simpl.
    split; [|split].
    + induction (persons d) as [|p ps IH]; simpl; [done|].
      destruct (String.eqb_spec (person_id p) pid) as [Hp|Hp]; simpl.
      * destruct (String.eqb_spec (person_id p) q); [congruence | done].
      * by rewrite IH.
    + induction (attendance d) as [|r rs IH]; simpl; [done|].
      destruct (String.eqb_spec (a_person_id r) pid) as [Hr|Hr]; simpl.
      * destruct (String.eqb_spec (a_person_id r) q); [congruence | done].
      * by rewrite IH.
    + induction (face_logs d) as [|l ls IH]; simpl; [done|].
      destruct (String.eqb_spec (fl_person_id l) pid) as [Hl|Hl]; simpl.
      * destruct (String.eqb_spec (fl_person_id l) q); [congruence | done].
      * by rewrite IH.
Qed.

Lemma delete_person_cascades_witness :
  has_person "E001"
    (snd (delete_person no_op_fault "E001" Scenario.staff_arrived)) = false.
Proof.
  apply (delete_person_cascades no_op_fault "E001" Scenario.staff_arrived
           "Deleted Successfully" eq_refl).
Defined.

Lemma select_person_updated pid nm s1 s2 d :
  select_person pid
    (set_persons
       (List.map
          (fun p => if String.eqb (person_id p) pid
                    then PersonRow (person_id p) nm (Some s1) (Some s2)
                    else p) (persons d)) d)
  = (fun p => PersonRow (person_id p) nm (Some s1) (Some s2))
      <$> select_person pid d.
Proof.
  unfold select_person. simpl.
  induction (persons d) as [|p ps IH]; simpl; [done|].
  destruct (String.eqb (person_id p) pid) eqn:Hp; simpl.
  - by rewrite Hp.
  - by rewrite Hp, IH.
Qed.

(** X18.  A changed shift end takes effect at the next sync: after
    [update_person] has set a person's shift end to a text HH:MM (two
    decimal digits before the colon), a sync of that person who has an
    attendance row for today returns "LOGOUT UPDATE: ..." if the current
    hour is at least the new HH and "Shift Ongoing (Ends ...)", naming the
    new shift end, otherwise. *)
Theorem updated_shift_end_is_used pid nm email dept s1 a b rest x y d c sf :
  has_person pid d = true ->
  (exists r, r ∈ attendance d /\ a_person_id r = pid /\ a_date r = today c) ->
  (forall s, sf s = None) ->
  digit_of a = Some x ->
  digit_of b = Some y ->
  let s2 := String a (String b (String ":"%char rest)) in
  fst (sync_daily_attendance c sf pid
         (snd (update_person no_op_fault pid nm email dept s1 s2 d)))
  = Returned (if 10 * x + y <=? hour c
              then "LOGOUT UPDATE: " +:+ current_time c
              else "Shift Ongoing (Ends " +:+ s2 +:+ ")").
Proof.
  intros Hhas Hrow Hsf Ha Hb s2. unfold update_person. simpl.
  rewrite DatabaseFacts.sync_no_fault by done.
  rewrite select_person_updated.
  destruct (select_person pid d) as [p|] eqn:Hp.
  - cbn [fmap option_fmap option_map shift_end].
    destruct (DatabaseFacts.select_attendance_some pid (today c) d Hrow)
      as [r Hr].
    unfold select_attendance in *. cbn [attendance set_persons]. rewrite Hr.
    unfold user_shift_end_hour, fmt. subst s2.
    rewrite (DatabaseFacts.before_colon_two_digits a b rest x y Ha Hb).
    rewrite (DatabaseFacts.py_int_two_digits a b x y Ha Hb).
    reflexivity.
  - unfold has_person in Hhas. unfold select_person in Hp.
    apply existsb_exists in Hhas as (p & Hin & Heq).
    pose proof (find_none _ _ Hp p Hin). simpl in *. congruence.
Qed.

Lemma updated_shift_end_is_used_witness :
  fst (sync_daily_attendance Scenario.at_17_00 no_fault "E001"
         (snd (update_person no_op_fault "E001" "Alice" None None
                 "08:00" "17:00" Scenario.staff_arrived)))
  = Returned "LOGOUT UPDATE: 17:00:00".
Proof.
  apply (updated_shift_end_is_used "E001" "Alice" None None "08:00"
           "1"%char "7"%char "00" 1 7
           Scenario.staff_arrived Scenario.at_17_00 no_fault eq_refl).
  - eexists. split; [apply list_elem_of_here|]. split; reflexivity.
  - reflexivity.
  - reflexivity.
  - reflexivity.
Defined.

End PersonFacts.

(** ** Registration: the database and the face store together *)
Module RegistrationFacts.
Import Database FaceStore Registration.

Lemma not_registered_not_recognized sim h query pid :
  dict_mem pid (registered_faces h) = false ->
  fst (fst (recognize_face sim h query)) <> Some pid.
Proof.
  intros Hmem Hres.
  destruct (recognize_face sim h query) as [[rid nm] s] eqn:Hface.
  simpl in Hres. subst rid.
  destruct (MatcherFacts.recognize_face_some _ _ _ _ _ _ Hface)
    as (i & d & Hi & _).
  apply list_elem_of_lookup_2, list_elem_of_In in Hi.
  assert (dict_mem pid (registered_faces h) = true); [|congruence].
  apply existsb_exists. exists (pid, d). split; [done|]. apply String.eqb_refl.
Qed.

Lemma removed_not_registered io pid h :
  dict_mem pid (registered_faces (snd (remove_face_encoding io pid h))) = false.
Proof.
  unfold remove_face_encoding.
  destruct (dict_mem pid (registered_faces h)) eqn:Hmem; [|done].
  destruct io; simpl; apply FaceStoreFacts.dict_mem_del.
Qed.

(** X19.  After [RegistrationModule.delete_person] has reported success the
    person is gone from both stores: there is no [persons] row and no
    registry entry for the id, [recognize_face] returns that id for no
    face, and a sync of that id (as a track still bound to it would cause)
    returns "Error: Person not found" and writes nothing. *)
Theorem deleted_person_is_forgotten sim f io pid s msg :
  fst (delete_person f io pid s) = Returned (true, msg) ->
  let s' := snd (delete_person f io pid s) in
  has_person pid (db_manager s') = false
  /\ dict_mem pid (registered_faces (face_handler s')) = false
  /\ (forall query,
        fst (fst (recognize_face sim (face_handler s') query)) <> Some pid)
  /\ (forall c sf,
        sf Connect = None -> sf Cursor = None ->
        sf (Execute SelectShiftEnd) = None ->
        sync_daily_attendance c sf pid (db_manager s')
        = (Returned "Error: Person not found", db_manager s')).
Proof.
  unfold delete_person. intros Hok.
  pose proof (PersonFacts.delete_person_cases f pid (db_manager s)) as Hcases.
  destruct (Database.delete_person f pid (db_manager s))
    as [[[ok m]|err] d] eqn:Hdel; [|done].
  destruct ok; [|done]. simpl in *.
  destruct Hcases as [[_ Hno]|[_ ->]]; [by destruct (Hno m)|].
  pose proof (PersonFacts.delete_rows_no_person pid (db_manager s)) as Hhas.
  split; [done|]. split; [apply removed_not_registered|].
  split; [intros query; apply not_registered_not_recognized,
                         removed_not_registered|].
  intros c sf Hc Hk Hq.
  unfold sync_daily_attendance, unguarded, guarded. rewrite Hc, Hk, Hq.
  unfold has_person in Hhas. unfold select_person.
  destruct (List.find _ _) as [p|] eqn:Hfind; [|done].
  apply find_some in Hfind as [Hin Hp].
  assert (existsb (fun p => String.eqb (person_id p) pid)
            (persons (delete_rows pid (db_manager s))) = true)
    by (apply existsb_exists; eauto).
  congruence.
Qed.

Lemma deleted_person_is_forgotten_witness :
  has_person "E001"
    (db_manager
       (snd (delete_person no_op_fault (WriteFails Garbage) "E001"
               {| db_manager := Scenario.staff_arrived;
                  face_handler := Scenario.office |}))) = false
  /\ dict_mem "E001"
       (registered_faces
          (face_handler
             (snd (delete_person no_op_fault (WriteFails Garbage) "E001"
                     {| db_manager := Scenario.staff_arrived;
                        face_handler := Scenario.office |})))) = false.
Proof.
  pose proof (deleted_person_is_forgotten Scenario.dot no_op_fault
                (WriteFails Garbage) "E001"
                {| db_manager := Scenario.staff_arrived;
                   face_handler := Scenario.office |}
                "Deleted Successfully" eq_refl) as (H1 & H2 & _).
  split; [exact H1 | exact H2].
Defined.

(** X20.  [register_person_from_image] registers in both stores or in
    none.  If it does not report success, neither the database nor the face
    registry has changed.  If it does, the image held exactly one face, the
    id was free, the person has a [persons] row with the default shift
    09:00-18:00, and the registry maps the id to the name and that face's
    encoding -- whether or not the registry file could be written. *)
Theorem registration_is_all_or_nothing image f io pid nm email dept s :
  let r := register_person_from_image image f io pid nm email dept s in
  ((forall msg, fst r <> Returned (true, msg)) -> snd r = s)
  /\ (forall msg, fst r = Returned (true, msg) ->
        exists enc,
          image = Some [enc]
          /\ has_person pid (db_manager s) = false
          /\ select_person pid (db_manager (snd r))
             = Some (PersonRow pid nm (Some "09:00") (Some "18:00"))
          /\ List.find (fun e => String.eqb (fst e) pid)
               (registered_faces (face_handler (snd r)))
             = Some (pid, FaceData nm enc)).
Proof.
  unfold register_person_from_image.
  destruct image as [found|]; [|split; [done | by intros msg [= ]]].
  destruct found as [|enc [|enc' found]]; simpl;
    [split; [done | by intros msg [= ]] | |split; [done | by intros msg [= ]]].
  pose proof (PersonFacts.add_person_cases f pid nm enc email dept
                "09:00" "18:00" (db_manager s)) as Hcases.
  destruct (add_person f pid nm enc email dept "09:00" "18:00" (db_manager s))
    as [[[ok m]|err] d] eqn:Hadd; simpl in Hcases.
  - destruct Hcases as [[-> Hno]|(Hfree & [= -> ->] & ->)].
    + destruct ok; [by destruct (Hno m)|]. simpl.
      split; [by destruct s | by intros msg [= ]].
    + simpl. split; [intros Hno; by destruct (Hno "Person added successfully")|].
      intros msg _. exists enc. split; [done|]. split; [done|].
      split; [by apply PersonFacts.select_person_app_new|].
      unfold add_face_encoding. destruct io; simpl;
        apply RegistryFacts.dict_set_same.
  - destruct Hcases as [[-> _]|(_ & [= ] & _)]. simpl.
    split; [by destruct s | by intros msg [= ]].
Qed.

(** X21.  With the server out of reach, person management does not return
    its failure tuple: [add_person], [update_person] and [delete_person]
    open the connection inside the [try] and use [conn] in the [finally]
    block, so they end with the [UnboundLocalError] of that block, and so do
    [register_person_from_image] and [RegistrationModule.delete_person];
    nothing is changed. *)
Theorem management_raises_when_unreachable f io pid nm enc email dept s1 s2 s err :
  at_connect f = Some err ->
  add_person f pid nm enc email dept s1 s2 (db_manager s)
  = (Raised unbound_conn, db_manager s)
  /\ update_person f pid nm email dept s1 s2 (db_manager s)
     = (Raised unbound_conn, db_manager s)
  /\ Database.delete_person f pid (db_manager s)
     = (Raised unbound_conn, db_manager s)
  /\ register_person_from_image (Some [enc]) f io pid nm email dept s
     = (Raised unbound_conn, s)
  /\ delete_person f io pid s = (Raised unbound_conn, s).
Proof.
  intros Hc.
  unfold register_person_from_image, delete_person, add_person, update_person,
    Database.delete_person.
  simpl. rewrite Hc. by destruct s.
Qed.

Lemma management_raises_when_unreachable_witness :
  delete_person (OpFaults (Some Scenario.unreachable) None None None) WriteOk
    "E001"
    {| db_manager := Scenario.staff_arrived; face_handler := Scenario.office |}
  = (Raised unbound_conn,
     {| db_manager := Scenario.staff_arrived; face_handler := Scenario.office |}).
Proof.
  apply (management_raises_when_unreachable
           (OpFaults (Some Scenario.unreachable) None None None) WriteOk
           "E001" "Alice" Scenario.alice None None "09:00" "18:00"
           {| db_manager := Scenario.staff_arrived;
              face_handler := Scenario.office |}
           Scenario.unreachable eq_refl).
Defined.

End RegistrationFacts.

(** ** Database: reading the shift end *)
Module ShiftFacts.
Import Database.

(** X22.  For a shift end written HH:MM the hour compared with the clock is
    HH: the two digits before the colon, read in base ten. *)
Theorem shift_end_hour_is_HH a b rest x y :
  digit_of a = Some x ->
  digit_of b = Some y ->
  user_shift_end_hour (Some (String a (String b (String ":"%char rest))))
  = 10 * x + y.
Proof.
  intros Ha Hb. unfold user_shift_end_hour.
  rewrite (DatabaseFacts.before_colon_two_digits a b rest x y Ha Hb).
  by rewrite (DatabaseFacts.py_int_two_digits a b x y Ha Hb).
Qed.

Lemma shift_end_hour_is_HH_witness :
  user_shift_end_hour (Some "07:45") = 10 * 0 + 7.
Proof.
  apply (shift_end_hour_is_HH "0"%char "7"%char "45" 0 7); reflexivity.
Defined.

End ShiftFacts.

(** ** Attendance: the raw-log timer, and whom a call concerns *)
Module TrackerFacts.
Import Database Attendance.

Lemma raw_logs_app q ev1 ev2 :
  raw_logs q (ev1 ++ ev2) = raw_logs q ev1 || raw_logs q ev2.
Proof. apply existsb_app. Qed.

Lemma raw_logs_voice_feedback q nm msg : raw_logs q (voice_feedback nm msg) = false.
Proof. unfold voice_feedback. by repeat case_match. Qed.

(** PART 1, for the person [q]. *)
Lemma raw_logging_log r pid nm t q :
  let '(_, t', ev) := raw_logging r pid nm t in
  (raw_logs q ev = true ->
     q = pid
     /\ last_log_time t' !! q = Some (current_ts r)
     /\ forall l, last_log_time t !! q = Some l -> (90 < current_ts r - l)%Q)
  /\ (raw_logs q ev = false -> last_log_time t' !! q = last_log_time t !! q)
  /\ (q <> pid -> raw_logs q ev = false).
Proof.
  unfold raw_logging.
  destruct (due _ _ _ _) eqn:Hdue; [|done].
  destruct (log_raw_detection _ _ _ _ _) as [[u|err] d]; simpl; [|done].
  rewrite orb_false_r.
  split; [|split].
  - intros ->%String.eqb_eq. split; [done|].
    split; [by rewrite lookup_insert_eq|].
    intros l Hl. unfold due in Hdue. rewrite Hl in Hdue.
    by apply Qgtb_true in Hdue.
  - intros Hne%String.eqb_neq. by rewrite lookup_insert_ne.
  - intros Hne. apply String.eqb_neq. congruence.
Qed.

(** PART 2 leaves the raw-log timer alone. *)
Lemma attendance_logic_log r pid nm t q :
  let '(_, t', ev) := attendance_logic r pid nm t in
  last_log_time t' = last_log_time t /\ raw_logs q ev = false
  /\ (q <> pid -> syncs q ev = false
                  /\ last_attendance_time t' !! q = last_attendance_time t !! q).
Proof.
  unfold attendance_logic.
  destruct (due _ _ _ _); [|done].
  destruct (sync_daily_attendance _ _ _ _) as [[msg|err] d]; simpl; [|done].
  rewrite raw_logs_voice_feedback, AttendanceFacts.syncs_voice_feedback.
  split; [done|]. split; [done|].
  intros Hne. rewrite orb_false_r. split.
  - apply String.eqb_neq. congruence.
  - by rewrite lookup_insert_ne.
Qed.

Lemma invoke_log_restarts pid c t :
  raw_logs pid (snd (invoke c t)) = true ->
  last_log_time (fst (invoke c t)) !! pid = Some (call_ts c)
  /\ forall l, last_log_time t !! pid = Some l -> (90 < call_ts c - l)%Q.
Proof.
  destruct c as [c|c]; simpl.
  - unfold process_recognized_face.
    pose proof (raw_logging_log (rc_reading c) (rc_person_id c)
                  (rc_person_name c) t pid) as H1.
    destruct (raw_logging _ _ _ t) as [[[u|err] t1] ev1]; simpl.
    + pose proof (attendance_logic_log (rc_reading c) (rc_person_id c)
                    (rc_person_name c) t1 pid) as H2.
      destruct (attendance_logic _ _ _ t1) as [[res t2] ev2]. simpl.
      destruct H2 as (-> & Hno & _). rewrite raw_logs_app, Hno, orb_false_r.
      intros Hlog. by destruct (proj1 H1 Hlog) as (_ & ? & ?).
    + intros Hlog. by destruct (proj1 H1 Hlog) as (_ & ? & ?).
  - unfold process_unknown_person.
    destruct (log_unknown_person _ _ _ _) as [[ok|err] d]; simpl; [|done].
    by destruct (Qgtb _ _).
Qed.

Lemma invoke_log_idle pid c t :
  raw_logs pid (snd (invoke c t)) = false ->
  last_log_time (fst (invoke c t)) !! pid = last_log_time t !! pid.
Proof.
  destruct c as [c|c]; simpl.
  - unfold process_recognized_face.
    pose proof (raw_logging_log (rc_reading c) (rc_person_id c)
                  (rc_person_name c) t pid) as H1.
    destruct (raw_logging _ _ _ t) as [[[u|err] t1] ev1]; simpl.
    + pose proof (attendance_logic_log (rc_reading c) (rc_person_id c)
                    (rc_person_name c) t1 pid) as H2.
      destruct (attendance_logic _ _ _ t1) as [[res t2] ev2]. simpl.
      destruct H2 as (-> & Hno & _). rewrite raw_logs_app, Hno, orb_false_r.
      apply H1.
    + apply H1.
  - unfold process_unknown_person.
    destruct (log_unknown_person _ _ _ _) as [[ok|err] d]; simpl; [|done].
    by destruct (Qgtb _ _).
Qed.

(** X23.  Raw detection logs of one person are more than 90 seconds apart:
    in any sequence of calls on a tracker, two calls that write a raw log
    for the same person have clock readings more than 90 seconds apart. *)
Theorem raw_log_cooldown cs t pid i j ci cj ei ej :
  (i < j)%nat ->
  cs !! i = Some ci -> cs !! j = Some cj ->
  fst (invocations cs t) !! i = Some ei ->
  fst (invocations cs t) !! j = Some ej ->
  raw_logs pid ei = true -> raw_logs pid ej = true ->
  (90 < call_ts cj - call_ts ci)%Q.
Proof.
  apply (AttendanceFacts.fires_apart (fun t => last_log_time t !! pid)
           (raw_logs pid) 90 ltac:(lra)
           (invoke_log_restarts pid) (invoke_log_idle pid)).
Qed.

Lemma raw_log_cooldown_witness :
  (90 < call_ts (Scenario.seen_at 1100) - call_ts (Scenario.seen_at 1000))%Q.
Proof.
  apply (raw_log_cooldown
           [Scenario.seen_at 1000; Scenario.seen_at 1050; Scenario.seen_at 1100]
           (init Scenario.staff) "E001" 0%nat 2%nat
           (Scenario.seen_at 1000) (Scenario.seen_at 1100)
           [RawLogged "E001" 1000; Synced "E001" 1000 "LOGIN: 17:00:00";
            Spoke "Welcome, Alice. Login Successful."]
           [RawLogged "E001" 1100;
            Synced "E001" 1100 "Shift Ongoing (Ends 18:00)"]).
  - lia.
  - reflexivity.
  - reflexivity.
  - vm_compute. reflexivity.
  - vm_compute. reflexivity.
  - reflexivity.
  - reflexivity.
Defined.

(** X24.  A raw log that fails inside the [try] of [log_raw_detection] is
    lost for 90 seconds: whenever the raw log is due and the connection and
    the cursor are obtained, the person's raw-log timer is restarted at the
    current reading, also when the insert or the commit failed and no row
    was written. *)
Theorem lost_raw_log_restarts_timer r pid nm t :
  due (last_log_time t) pid (current_ts r) 90 = true ->
  log_faults r Connect = None ->
  log_faults r Cursor = None ->
  let '(_, t', ev) := raw_logging r pid nm t in
  last_log_time t' !! pid = Some (current_ts r)
  /\ raw_logs pid ev = true
  /\ (log_faults r (Execute InsertFaceLog) <> None
      \/ log_faults r Commit <> None ->
      face_logs (db_manager t') = face_logs (db_manager t)).
Proof.
  intros Hdue Hc Hk. unfold raw_logging. rewrite Hdue.
  unfold log_raw_detection, unguarded, guarded. rewrite Hc, Hk.
  destruct (log_faults r (Execute InsertFaceLog)) as [e1|]; simpl.
  { by rewrite String.eqb_refl, lookup_insert_eq. }
  destruct (select_person pid (db_manager t)); simpl;
    [|by rewrite String.eqb_refl, lookup_insert_eq].
  destruct (log_faults r Commit) as [e2|]; simpl;
    rewrite String.eqb_refl, lookup_insert_eq;
    (split; [done|]); (split; [done|]); [done|].
  by intros [?|?].
Qed.

Lemma lost_raw_log_restarts_timer_witness :
  let r := {| current_ts := 1000;
              log_clock := Scenario.at_17_00;
              log_faults := fun s => match s with
                                     | Commit => Some "2013: Lost connection"
                                     | _ => None
                                     end;
              sync_clock := Scenario.at_17_00;
              sync_faults := no_fault |} in
  let '(_, t', ev) := raw_logging r "E001" "Alice" (init Scenario.staff) in
  last_log_time t' !! "E001" = Some (current_ts r)
  /\ raw_logs "E001" ev = true
  /\ (log_faults r (Execute InsertFaceLog) <> None
      \/ log_faults r Commit <> None ->
      face_logs (db_manager t') = face_logs (db_manager (init Scenario.staff))).
Proof.
  apply (lost_raw_log_restarts_timer
           {| current_ts := 1000;
              log_clock := Scenario.at_17_00;
              log_faults := fun s => match s with
                                     | Commit => Some "2013: Lost connection"
                                     | _ => None
                                     end;
              sync_clock := Scenario.at_17_00;
              sync_faults := no_fault |}
           "E001" "Alice" (init Scenario.staff)); reflexivity.
Defined.

(** X25.  A call of [process_recognized_face] concerns one person only: for
    any other person it writes no raw log, makes no sync, and leaves both
    timers as they are; and it never touches the alert timer. *)
Theorem other_persons_untouched r pid nm t q :
  q <> pid ->
  let '(_, t', ev) := process_recognized_face r pid nm t in
  raw_logs q ev = false
  /\ syncs q ev = false
  /\ last_log_time t' !! q = last_log_time t !! q
  /\ last_attendance_time t' !! q = last_attendance_time t !! q
  /\ last_unknown_alert_time t' = last_unknown_alert_time t.
Proof.
  intros Hne. unfold process_recognized_face.
  pose proof (raw_logging_log r pid nm t q) as H1.
  pose proof (AttendanceFacts.raw_logging_frame r pid nm t) as F1.
  destruct (raw_logging r pid nm t) as [[[u|err] t1] ev1].
  - destruct (F1 _ _ _ eq_refl) as (Hatt1 & Hal1 & _ & Hs1 & _).
    destruct H1 as (_ & Hidle & Hnolog). specialize (Hnolog Hne).
    pose proof (attendance_logic_log r pid nm t1 q) as H2.
    pose proof (AttendanceFacts.attendance_logic_sync r pid nm t1) as F2.
    destruct (attendance_logic r pid nm t1) as [[res t2] ev2].
    destruct (F2 _ _ _ q eq_refl) as (Hal2 & _).
    destruct H2 as (Hlog2 & Hno2 & Hother). destruct (Hother Hne) as [Hs2 Hatt2].
    rewrite raw_logs_app, AttendanceFacts.syncs_app, Hnolog, Hno2, Hs1, Hs2.
    rewrite Hlog2, (Hidle Hnolog), Hatt2, Hatt1, Hal2, Hal1. done.
  - destruct (F1 _ _ _ eq_refl) as (Hatt1 & Hal1 & _ & Hs1 & _).
    destruct H1 as (_ & Hidle & Hnolog). specialize (Hnolog Hne).
    rewrite Hnolog, Hs1, (Hidle Hnolog), Hatt1, Hal1. done.
Qed.

Lemma other_persons_untouched_witness :
  let '(_, t', ev) :=
    process_recognized_face (Scenario.server_lost 0) "E001" "Alice"
      (init Scenario.staff) in
  raw_logs "E002" ev = false
  /\ syncs "E002" ev = false
  /\ last_log_time t' !! "E002" = last_log_time (init Scenario.staff) !! "E002"
  /\ last_attendance_time t' !! "E002"
     = last_attendance_time (init Scenario.staff) !! "E002"
  /\ last_unknown_alert_time t'
     = last_unknown_alert_time (init Scenario.staff).
Proof.
  apply (other_persons_untouched (Scenario.server_lost 0) "E001" "Alice"
           (init Scenario.staff) "E002").
  discriminate.
Defined.

End TrackerFacts.

(** ** Video: overlap, labels and what gets bound *)
Module OverlapFacts.
Import Video Invariant.

Local Abbreviation iou bx g := (calculate_iou bx (bbox g)).

Lemma best_so_far_step bx seen acc f :
  best_so_far bx seen acc ->
  best_so_far bx (seen ++ [f]) (best_face_step bx acc f).
Proof.
  intros [Hbest Hbound]. unfold best_face_step.
  destruct (Qgtb (iou bx f) (1 # 2) && Qgtb (iou bx f) (snd acc)) eqn:Hup.
  - apply andb_true_iff in Hup as [Hhalf%Qgtb_true Hmax%Qgtb_true].
    split; simpl.
    + split; [apply elem_of_app; right; by apply list_elem_of_singleton|].
      by split.
    + intros g [Hg| ->%list_elem_of_singleton]%elem_of_app.
      * destruct (Hbound g Hg) as [H|H]; [left; lra | by right].
      * left. lra.
  - apply andb_false_iff in Hup. split.
    + destruct (fst acc) as [f0|]; [|done].
      destruct Hbest as (Hin & Heq & Hhalf).
      split; [apply elem_of_app; by left | by split].
    + intros g [Hg| ->%list_elem_of_singleton]%elem_of_app; [by apply Hbound|].
      destruct Hup as [H%Qgtb_false|H%Qgtb_false]; [by right | by left].
Qed.

Lemma best_so_far_all bx fs :
  best_so_far bx fs (fold_left (best_face_step bx) fs (None, 0%Q)).
Proof.
  assert (forall rest seen acc,
            best_so_far bx seen acc ->
            best_so_far bx (seen ++ rest)
              (fold_left (best_face_step bx) rest acc)) as Hloop.
  { induction rest as [|f rest IH]; intros seen acc Hacc; simpl.
    - by rewrite app_nil_r.
    - rewrite (assoc_L _ seen [f] rest : seen ++ f :: rest = (seen ++ [f]) ++ rest).
      apply IH. by apply best_so_far_step. }
  apply (Hloop fs [] (None, 0%Q)).
  split; simpl; [done|]. intros g Hg. by apply elem_of_nil in Hg.
Qed.

(** X27.  [find_best_face] pairs a track with the detection that overlaps
    it most: the face it returns is one of the detected faces, its overlap
    with the track exceeds 0.5, and no detected face overlaps more; it
    returns no face exactly when no detection overlaps by more than 0.5, in
    particular when nothing was detected. *)
Theorem find_best_face_is_best bx fs :
  match find_best_face bx fs with
  | Some f =>
      f ∈ fs /\ (1 # 2 < iou bx f)%Q
      /\ forall g, g ∈ fs -> (iou bx g <= iou bx f)%Q
  | None => forall g, g ∈ fs -> (iou bx g <= 1 # 2)%Q
  end.
Proof.
  unfold find_best_face.
  destruct (best_so_far_all bx fs) as [Hbest Hbound].
  destruct (fst _) as [f|].
  - destruct Hbest as (Hin & Heq & Hhalf). rewrite Heq in *.
    split; [done|]. split; [done|].
    intros g Hg. destruct (Hbound g Hg) as [H|H]; lra.
  - intros g Hg. rewrite Hbest in Hbound.
    destruct (Hbound g Hg) as [H|H]; lra.
Qed.

End OverlapFacts.

(** ** Video: labels, snapshots and bindings of a frame *)
Module FrameFacts.
Import Video.

Section Frames.

Context {W : Type}.
Variable sim : encoding -> encoding -> Q.
Variable mark :
  option (string -> string -> W -> result (bool * option string) * W).
Variable unknown : option (string -> encoding -> W -> result unit * W).

Lemma update_attendance_labels keep pid nm (s : loop_state) :
  labels (snd (update_attendance mark keep pid nm s)) = labels s.
Proof. unfold update_attendance. by repeat case_match. Qed.

Lemma log_unknown_labels inp i t best (s : loop_state) :
  labels (snd (log_unknown unknown inp i t best s)) = labels s.
Proof. unfold log_unknown. by repeat case_match. Qed.

(** An iteration that is not left by an exception appends one label. *)
Lemma handle_track_label inp i t (s : loop_state) :
  let r := handle_track sim mark unknown inp i t s in
  fst r = None -> length (labels (snd r)) = S (length (labels s)).
Proof.
  unfold handle_track.
  destruct (tracker_id_to_person (proc s) !! tracker_id t)
    as [[person_id person_name]|].
  - pose proof (update_attendance_labels
                  (fun m => negb (str_in "Tracking" m)) person_id person_name s)
      as Hl.
    destruct (update_attendance _ _ _ _ _) as [[err|] s1]; simpl in *; [done|].
    intros _. rewrite length_app, Hl. simpl. lia.
  - destruct (find_best_face _ _) as [best_face|];
      [|simpl; intros _; rewrite length_app; simpl; lia].
    destruct (FaceStore.recognize_face _ _ _) as [[person_id person_name] score].
    assert (Hunknown :
      let r := match log_unknown unknown inp i t best_face s with
               | (Some err, s1) => (Some err, s1)
               | (None, s1) =>
                   (None, add_label ("Unknown #" +:+ pretty (tracker_id t)) s1)
               end in
      fst r = None -> length (labels (snd r)) = S (length (labels s))).
    { pose proof (log_unknown_labels inp i t best_face s) as Hl.
      destruct (log_unknown _ _ _ _ _ _) as [[err|] s1]; simpl in *; [done|].
      intros _. rewrite length_app, Hl. simpl. lia. }
    destruct person_id as [pid|]; [|exact Hunknown].
    destruct (truthy pid); [|exact Hunknown].
    pose proof (update_attendance_labels (fun _ => true) pid
                  (default "None" person_name)
                  (bind_track (tracker_id t) pid (default "None" person_name) s))
      as Hl.
    destruct (update_attendance _ _ _ _ _) as [[err|] s2]; simpl in *; [done|].
    intros _. rewrite length_app, Hl. simpl. lia.
Qed.

Lemma for_each_track_labels inp ts : forall i (s : loop_state),
  let r := for_each_track sim mark unknown inp i ts s in
  fst r = None ->
  length (labels (snd r)) = (length (labels s) + length ts)%nat.
Proof.
  induction ts as [|t ts IH]; intros i s; simpl; [intros _; lia|].
  pose proof (handle_track_label inp i t s) as Hstep. simpl in Hstep.
  destruct (handle_track _ _ _ _ _ _ _) as [[err|] s1]; simpl in *; [done|].
  intros Hnone. rewrite (IH (S i) s1 Hnone), Hstep by done. lia.
Qed.

(** X28.  When [process_frame] returns, it has made one label per tracked
    detection, so the annotator gets as many labels as boxes. *)
Theorem labels_match_detections inp p w lbls msgs :
  outcome (process_frame sim mark unknown inp p w) = Returned (lbls, msgs) ->
  length lbls = length (tracked_detections inp).
Proof.
  unfold process_frame.
  pose proof (for_each_track_labels inp (tracked_detections inp) 0%nat
                {| proc := p; world := w; labels := []; messages := [];
                   snapshots := [] |}) as Hl.
  destruct (for_each_track _ _ _ _ _ _ _) as [[err|] s]; simpl in *; [done|].
  intros [= <- _]. by apply Hl.
Qed.

Lemma update_attendance_cache keep pid nm (s : loop_state) :
  proc (snd (update_attendance mark keep pid nm s)) = proc s.
Proof. unfold update_attendance. by repeat case_match. Qed.

Lemma log_unknown_cache inp i t best (s : loop_state) :
  tracker_id_to_person (proc (snd (log_unknown unknown inp i t best s)))
  = tracker_id_to_person (proc s).
Proof. unfold log_unknown. by repeat case_match. Qed.

(** Where the bindings of the cache come from. *)
Lemma handle_track_binds_registered inp i t (s : loop_state) k v :
  tracker_id_to_person
    (proc (snd (handle_track sim mark unknown inp i t s))) !! k = Some v ->
  tracker_id_to_person (proc s) !! k = Some v
  \/ FaceStore.dict_mem (fst v)
       (FaceStore.registered_faces (face_handler inp)) = true.
Proof.
  unfold handle_track.
  destruct (tracker_id_to_person (proc s) !! tracker_id t)
    as [[person_id person_name]|] eqn:Hbound.
  - pose proof (update_attendance_cache
                  (fun m => negb (str_in "Tracking" m)) person_id person_name s)
      as Hp.
    destruct (update_attendance _ _ _ _ _) as [[err|] s1]; simpl in *;
      rewrite Hp; by left.
  - destruct (find_best_face _ _) as [best_face|]; [|by left].
    destruct (FaceStore.recognize_face sim (face_handler inp)
                (embedding best_face))
      as [[person_id person_name] score] eqn:Hface.
    assert (Hunknown :
      tracker_id_to_person
        (proc (snd match log_unknown unknown inp i t best_face s with
                   | (Some err, s1) => (Some err, s1)
                   | (None, s1) =>
                       (None,
                        add_label ("Unknown #" +:+ pretty (tracker_id t)) s1)
                   end)) !! k = Some v ->
      tracker_id_to_person (proc s) !! k = Some v
      \/ FaceStore.dict_mem (fst v)
           (FaceStore.registered_faces (face_handler inp)) = true).
    { pose proof (log_unknown_cache inp i t best_face s) as Hc.
      destruct (log_unknown _ _ _ _ _ _) as [[err|] s1]; simpl in *;
        rewrite Hc; by left. }
    destruct person_id as [pid|]; [|exact Hunknown].
    destruct (truthy pid); [|exact Hunknown].
    pose proof (update_attendance_cache (fun _ => true) pid
                  (default "None" person_name)
                  (bind_track (tracker_id t) pid (default "None" person_name) s))
      as Hp.
    assert (tracker_id_to_person
              (proc (bind_track (tracker_id t) pid
                       (default "None" person_name) s)) !! k = Some v ->
            tracker_id_to_person (proc s) !! k = Some v
            \/ FaceStore.dict_mem (fst v)
                 (FaceStore.registered_faces (face_handler inp)) = true)
      as Hbind.
    { simpl. destruct (decide (tracker_id t = k)) as [->|Hne].
      - rewrite lookup_insert_eq. intros [= <-]. right. simpl.
        destruct (FaceStore.dict_mem pid _) eqn:Hmem; [done|].
        destruct (RegistrationFacts.not_registered_not_recognized sim
                    (face_handler inp) (embedding best_face) pid Hmem).
        by rewrite Hface.
      - rewrite lookup_insert_ne by done. by left. }
    destruct (update_attendance _ _ _ _ _) as [[err|] s2]; simpl in *;
      rewrite Hp; exact Hbind.
Qed.

Lemma for_each_track_binds_registered inp ts : forall i (s : loop_state) k v,
  tracker_id_to_person
    (proc (snd (for_each_track sim mark unknown inp i ts s))) !! k = Some v ->
  tracker_id_to_person (proc s) !! k = Some v
  \/ FaceStore.dict_mem (fst v)
       (FaceStore.registered_faces (face_handler inp)) = true.
Proof.
  induction ts as [|t ts IH]; intros i s k v; simpl; [by left|].
  pose proof (handle_track_binds_registered inp i t s k v) as Hstep.
  destruct (handle_track _ _ _ _ _ _ _) as [[err|] s1]; simpl in *; [done|].
  intros Hk. destruct (IH (S i) s1 k v Hk) as [H|H]; [by apply Hstep | by right].
Qed.

(** X29.  Nobody is bound who is not registered: if a person id is in the
    registry of none of the frames processed and no track is bound to it
    at the start (as after [clear_cache]), then no track is bound to it at
    the end of the capture loop. *)
Theorem unregistered_person_never_bound frames pid : forall p w,
  (forall inp, inp ∈ frames ->
     FaceStore.dict_mem pid (FaceStore.registered_faces (face_handler inp))
     = false) ->
  (forall k v, tracker_id_to_person p !! k = Some v -> fst v <> pid) ->
  forall k v,
    tracker_id_to_person
      (final_proc (frame_loop sim mark unknown frames p w)) !! k = Some v ->
    fst v <> pid.
Proof.
  induction frames as [|inp frames IH]; intros p w Hreg Hp k v; simpl;
    [apply Hp|].
  assert (forall k v,
            tracker_id_to_person
              (proc_after (process_frame sim mark unknown inp p w)) !! k
            = Some v -> fst v <> pid) as Hp1.
  { intros k' v' Hk'. unfold process_frame in Hk'.
    pose proof (for_each_track_binds_registered inp (tracked_detections inp)
                  0%nat
                  {| proc := p; world := w; labels := []; messages := [];
                     snapshots := [] |} k' v') as Hfrom.
    destruct (for_each_track _ _ _ _ _ _ _) as [exn s]. simpl in *.
    destruct (Hfrom Hk') as [H|H]; [by eapply Hp|].
    intros Heq. rewrite Heq, Hreg in H; [done | by left]. }
  destruct (outcome (process_frame sim mark unknown inp p w)); simpl;
    [|apply Hp1].
  apply IH; [|exact Hp1]. intros inp' Hin. apply Hreg. by right.
Qed.

End Frames.

(** The capture loop as the GUI runs it: without the unknown-person
    callback. *)
Section Dashboard.

Context {W : Type}.
Variable sim : encoding -> encoding -> Q.
Variable mark :
  option (string -> string -> W -> result (bool * option string) * W).

Lemma handle_track_quiet inp i t (s : loop_state) :
  let r := handle_track sim mark None inp i t s in
  snapshots (snd r) = snapshots s
  /\ logged_unknown_ids (proc (snd r)) = logged_unknown_ids (proc s).
Proof.
  unfold handle_track, log_unknown, update_attendance.
  repeat case_match; simplify_eq; done.
Qed.

Lemma for_each_track_quiet inp ts : forall i (s : loop_state),
  let r := for_each_track sim mark None inp i ts s in
  snapshots (snd r) = snapshots s
  /\ logged_unknown_ids (proc (snd r)) = logged_unknown_ids (proc s).
Proof.
  induction ts as [|t ts IH]; intros i s; simpl; [done|].
  pose proof (handle_track_quiet inp i t s) as [Hs Hl]. simpl in Hs, Hl.
  destruct (handle_track _ _ _ _ _ _ _) as [[err|] s1]; simpl in *; [done|].
  destruct (IH (S i) s1) as [Hs2 Hl2]. split; congruence.
Qed.

(** X30.  Without an unknown-person callback -- the way the GUI calls
    [process_frame] -- the capture loop takes no snapshot and marks no track
    as logged, whatever it sees. *)
Theorem dashboard_takes_no_snapshot frames : forall p w,
  taken (frame_loop sim mark None frames p w) = []
  /\ logged_unknown_ids (final_proc (frame_loop sim mark None frames p w))
     = logged_unknown_ids p.
Proof.
  induction frames as [|inp frames IH]; intros p w; simpl; [done|].
  assert (snapshots_taken (process_frame sim mark None inp p w) = []
          /\ logged_unknown_ids (proc_after (process_frame sim mark None inp p w))
             = logged_unknown_ids p) as [Hs Hl].
  { unfold process_frame.
    pose proof (for_each_track_quiet inp (tracked_detections inp) 0%nat
                  {| proc := p; world := w; labels := []; messages := [];
                     snapshots := [] |}) as Hq.
    by destruct (for_each_track _ _ _ _ _ _ _) as [exn s]. }
  destruct (outcome (process_frame sim mark None inp p w)); simpl; [|done].
  destruct (IH (proc_after (process_frame sim mark None inp p w))
              (world_after (process_frame sim mark None inp p w))) as [Hs2 Hl2].
  rewrite Hs, Hs2, Hl2. done.
Qed.

End Dashboard.

Lemma labels_match_detections_witness :
  length ["Alice (E001)"] = length (tracked_detections
                                      (Scenario.frame_with Scenario.office
                                         Scenario.alice)).
Proof.
  apply (labels_match_detections (W := unit) Scenario.dot None None
           (Scenario.frame_with Scenario.office Scenario.alice) Video.init tt
           ["Alice (E001)"] []).
  vm_compute. reflexivity.
Defined.

Lemma unregistered_person_never_bound_witness :
  tracker_id_to_person
    (final_proc
       (frame_loop Scenario.dot None None
          [Scenario.frame_with Scenario.office_later Scenario.alice;
           Scenario.frame_with Scenario.office_later Scenario.carol]
          (clear_cache Scenario.knows_alice) tt)) !! 7
  = Some ("E003", "Carol")
  /\ fst ("E003", "Carol") <> "E001".
Proof.
  assert (tracker_id_to_person
            (final_proc
               (frame_loop Scenario.dot None None
                  [Scenario.frame_with Scenario.office_later Scenario.alice;
                   Scenario.frame_with Scenario.office_later Scenario.carol]
                  (clear_cache Scenario.knows_alice) tt)) !! 7
          = Some ("E003", "Carol")) as Hbound by (vm_compute; reflexivity).
  split; [exact Hbound|].
  refine (unregistered_person_never_bound (W := unit) Scenario.dot None None
            [Scenario.frame_with Scenario.office_later Scenario.alice;
             Scenario.frame_with Scenario.office_later Scenario.carol]
            "E001" (clear_cache Scenario.knows_alice) tt _ _
            7 ("E003", "Carol") Hbound).
  - intros inp Hin.
    apply elem_of_cons in Hin as [->|Hin];
      [|apply elem_of_cons in Hin as [->|Hin]; [|by apply elem_of_nil in Hin]];
      reflexivity.
  - intros k v Hk. simpl in Hk. by rewrite lookup_empty in Hk.
Defined.

End FrameFacts.
